(** * LifAi2: the splash launcher and the local-LLM client layer

    Shallow embedding of [splash.pyw] (the splash screen that starts the
    main application), of the exception classes declared for the two
    backend clients ([memory-bank/ai_clients_api_reference.md]), of the
    synchronous-wrapper pattern ([memory-bank/systemPatterns.md]), and of
    the parts of the client layer whose code is not in the tree, modelled
    from the specification of the layer. *)

From Stdlib Require Import ZArith QArith Lia Lqa.
From stdpp Require Import base list strings gmap.
From Stdlib Require Ascii.

Open Scope Z_scope.

(* ================================================================== *)
(** ** [splash.pyw] *)

Module Splash.

(** What [main] reads from the machine it runs on. *)
Record Env := {
  script_dir : string;          (** [os.path.dirname(os.path.abspath(__file__))] *)
  os_sep : string;              (** [os.sep] *)
  sys_platform : string;        (** [sys.platform] *)
  path_exists : string -> bool; (** [os.path.exists] *)
  can_start : string -> bool    (** whether the OS can start this program
                                    (an executable file, or a name found on PATH) *)
}.

(** [a.endswith(suf)] *)
Definition ends_with (suf a : string) : bool :=
  (String.length suf <=? String.length a)%nat &&
  String.eqb (String.substring (String.length a - String.length suf) (String.length suf) a) suf.

(** [os.path.join(a, b)] for a relative component [b]. *)
Definition path_join (env : Env) (a b : string) : string :=
  if String.eqb a "" then b
  else if ends_with (os_sep env) a then a +:+ b
  else a +:+ os_sep env +:+ b.

Definition CREATE_NO_WINDOW : Z := 134217728. (* 0x08000000 *)

(** [creationflags=subprocess.CREATE_NO_WINDOW if sys.platform == 'win32' else 0] *)
Definition creationflags (env : Env) : Z :=
  if String.eqb (sys_platform env) "win32" then CREATE_NO_WINDOW else 0.

(** Outcome of [subprocess.Popen(argv, creationflags=f)]: the child is
    started and not waited for, or [Popen] raises [OSError]
    ([FileNotFoundError] when the program cannot be found). *)
Inductive popen_result :=
| Spawned (argv : list string) (flags : Z)
| PopenRaised (argv : list string).

Definition popen (env : Env) (argv : list string) (flags : Z) : popen_result :=
  match argv with
  | prog :: _ => if can_start env prog then Spawned argv flags else PopenRaised argv
  | [] => PopenRaised argv
  end.

(** The two paths [launch_main_app] builds (lines 192-193). *)
Definition pythonw (env : Env) : string :=
  path_join env (path_join env (path_join env (script_dir env) ".venv") "Scripts")
    "pythonw.exe".

Definition run_script (env : Env) : string := path_join env (script_dir env) "run.pyw".

(** [launch_main_app] (lines 191-200). *)
Definition launch_main_app (env : Env) : popen_result :=
  if path_exists env (pythonw env)
  then popen env [pythonw env; run_script env] (creationflags env)
  else popen env ["pythonw"; run_script env] (creationflags env).

(** The callbacks handed to [QTimer.singleShot]. *)
Inductive callback :=
| CbAnimStart (i : nat)   (** [anim.start] of dot [i] *)
| CbLaunch                (** [launch_main_app] *)
| CbQuit.                 (** [app.quit] *)

(** Pending single-shot timers: (deadline in ms, callback), kept ordered by
    deadline; timers with equal deadlines fire in the order they were set. *)
Fixpoint insert_timer (t : Z) (cb : callback) (ts : list (Z * callback))
  : list (Z * callback) :=
  match ts with
  | [] => [(t, cb)]
  | (t', cb') :: ts' =>
      if Z.ltb t t' then (t, cb) :: ts else (t', cb') :: insert_timer t cb ts'
  end.

(** [QTimer.singleShot(ms, cb)] called at time [now]. *)
Definition single_shot (now ms : Z) (cb : callback) (ts : list (Z * callback)) :=
  insert_timer (now + ms) cb ts.

(** Observable events of the splash process. *)
Inductive event :=
| EvAnimStart (t : Z) (i : nat)
| EvSpawn (t : Z) (argv : list string) (flags : Z)
| EvUnhandled (t : Z) (argv : list string)   (** [Popen] raised in the slot *)
| EvQuit (t : Z).

(** How [app.exec()] ends: [app.quit] makes it return 0 and [sys.exit(0)]
    follows; an exception escaping a slot makes PyQt6 call [qFatal], which
    aborts the process; with no timer left the loop keeps waiting. *)
Inductive outcome := Exited (code : Z) | Aborted | Waiting.

(** [app.exec()]: fire the pending timers in deadline order. *)
Fixpoint exec (env : Env) (ts : list (Z * callback)) : list event * outcome :=
  match ts with
  | [] => ([], Waiting)
  | (t, CbAnimStart i) :: ts' =>
      let '(evs, o) := exec env ts' in (EvAnimStart t i :: evs, o)
  | (t, CbLaunch) :: ts' =>
      match launch_main_app env with
      | Spawned argv fl => let '(evs, o) := exec env ts' in (EvSpawn t argv fl :: evs, o)
      | PopenRaised argv => ([EvUnhandled t argv], Aborted)
      end
  | (t, CbQuit) :: _ => ([EvQuit t], Exited 0)
  end.

(** [SplashScreen._setup_animation]: [QTimer.singleShot(i * 200, anim.start)]
    for the three dots, during construction (time 0). *)
Definition setup_animation (ts : list (Z * callback)) : list (Z * callback) :=
  single_shot 0 400 (CbAnimStart 2)
    (single_shot 0 200 (CbAnimStart 1) (single_shot 0 0 (CbAnimStart 0) ts)).

(** [main] (lines 181-208), with startup at time 0. *)
Definition main (env : Env) : list event * outcome :=
  let ts := setup_animation [] in
  let ts := single_shot 0 500 CbLaunch ts in
  let ts := single_shot 0 3000 CbQuit ts in
  exec env ts.

End Splash.

(* ================================================================== *)
(** ** Exception classes of the two backend clients

    The class declarations of [lifai/utils/ollama_client.py] and
    [lifai/utils/lmstudio_client.py] as given in
    [memory-bank/ai_clients_api_reference.md] (lines 13-25 and 93-105):
    every class is a direct subclass of the one named in its bases. *)

Module Errors.

Inductive pyclass :=
| PyBaseException
| PyException
| OllamaError
| OllamaConnectionError
| OllamaTimeoutError
| OllamaModelNotFoundError
| LMStudioError
| LMStudioConnectionError
| LMStudioTimeoutError
| LMStudioModelNotFoundError.

Definition pyclass_eqb (c d : pyclass) : bool :=
  match c, d with
  | PyBaseException, PyBaseException | PyException, PyException
  | OllamaError, OllamaError | OllamaConnectionError, OllamaConnectionError
  | OllamaTimeoutError, OllamaTimeoutError
  | OllamaModelNotFoundError, OllamaModelNotFoundError
  | LMStudioError, LMStudioError | LMStudioConnectionError, LMStudioConnectionError
  | LMStudioTimeoutError, LMStudioTimeoutError
  | LMStudioModelNotFoundError, LMStudioModelNotFoundError => true
  | _, _ => false
  end.

(** The base class of each declaration. *)
Definition base (c : pyclass) : option pyclass :=
  match c with
  | PyBaseException => None
  | PyException => Some PyBaseException
  | OllamaError => Some PyException
  | OllamaConnectionError | OllamaTimeoutError | OllamaModelNotFoundError =>
      Some OllamaError
  | LMStudioError => Some PyException
  | LMStudioConnectionError | LMStudioTimeoutError | LMStudioModelNotFoundError =>
      Some LMStudioError
  end.

(** The method resolution order [c.__mro__] (single inheritance). *)
Fixpoint mro_fuel (fuel : nat) (c : pyclass) : list pyclass :=
  match fuel with
  | O => [c]
  | S f => c :: match base c with Some p => mro_fuel f p | None => [] end
  end.

Definition mro (c : pyclass) : list pyclass := mro_fuel 4 c.

(** [issubclass(c, d)] *)
Definition issubclass (c d : pyclass) : bool := existsb (pyclass_eqb d) (mro c).

(** [try: ... except h1: ... except h2: ...]: the index of the first clause
    that catches an exception of class [c], if any. *)
Fixpoint first_handler (hs : list pyclass) (c : pyclass) : option nat :=
  match hs with
  | [] => None
  | h :: hs' =>
      if issubclass c h then Some O
      else match first_handler hs' c with Some i => Some (S i) | None => None end
  end.

Inductive backend := Ollama | LMStudio.

(** The classes each client module declares. *)
Definition family (b : backend) : list pyclass :=
  match b with
  | Ollama => [OllamaError; OllamaConnectionError; OllamaTimeoutError;
               OllamaModelNotFoundError]
  | LMStudio => [LMStudioError; LMStudioConnectionError; LMStudioTimeoutError;
                 LMStudioModelNotFoundError]
  end.

Definition base_error (b : backend) : pyclass :=
  match b with Ollama => OllamaError | LMStudio => LMStudioError end.

(** The four kinds of the shared taxonomy. *)
Inductive kind := KConnection | KTimeout | KModelNotFound | KProtocol.

(** The kind a declared class stands for, by its name and docstring. *)
Definition kind_of (c : pyclass) : option kind :=
  match c with
  | OllamaConnectionError | LMStudioConnectionError => Some KConnection
  | OllamaTimeoutError | LMStudioTimeoutError => Some KTimeout
  | OllamaModelNotFoundError | LMStudioModelNotFoundError => Some KModelNotFound
  | _ => None
  end.

Definition all_classes : list pyclass :=
  [PyBaseException; PyException] ++ family Ollama ++ family LMStudio.

(** The handler set of the "Error Handling Best Practices" section
    (lines 242-251). *)
Definition handler_set (b : backend) : list pyclass :=
  match b with
  | Ollama => [OllamaConnectionError; OllamaTimeoutError; OllamaModelNotFoundError;
               OllamaError]
  | LMStudio => [LMStudioConnectionError; LMStudioTimeoutError;
                 LMStudioModelNotFoundError; LMStudioError]
  end.

End Errors.

(* ================================================================== *)
(** ** The client layer (Backend Client A and its transport)

    The client modules are not in the tree; what follows is modelled from
    the specification of the layer (sections 3, 4.1, 4.2, 4.4, 6 and 7). *)

Module Client.

(** Modelled from the spec: the shared error taxonomy (4.2) as the tagged
    error result of 9 (kind, message, optional raw payload). *)
Inductive err_kind := ConnectionError | TimeoutError | ModelNotFoundError | ProtocolError.

Record error := mk_error { kind : err_kind; message : string; raw : option string }.

Inductive result (A : Type) := Ok (a : A) | Err (e : error).
Arguments Ok {A} a.
Arguments Err {A} e.

Definition result_map {A B} (f : A -> B) (r : result A) : result B :=
  match r with Ok a => Ok (f a) | Err e => Err e end.

Definition result_bind {A B} (r : result A) (k : A -> result B) : result B :=
  match r with Ok a => k a | Err e => Err e end.

Definition protocol_error {A} (msg : string) : result A :=
  Err (mk_error ProtocolError msg None).

#[local] Set Warnings "-register-all".

(** JSON values as [json.loads] returns them. *)
Inductive json :=
| JNull
| JBool (b : bool)
| JNum (q : Q)
| JStr (s : string)
| JArr (xs : list json)
| JObj (fs : list (string * json)).

Fixpoint assoc (k : string) (fs : list (string * json)) : option json :=
  match fs with
  | [] => None
  | (k', v) :: fs' => if String.eqb k k' then Some v else assoc k fs'
  end.

(** [obj.get(k)] on a JSON object. *)
Definition field (k : string) (j : json) : option json :=
  match j with JObj fs => assoc k fs | _ => None end.

Definition as_str (j : option json) : option string :=
  match j with Some (JStr s) => Some s | _ => None end.

Definition as_bool (j : option json) : option bool :=
  match j with Some (JBool b) => Some b | _ => None end.

Definition as_num (j : option json) : option Q :=
  match j with Some (JNum q) => Some q | _ => None end.

Fixpoint map_opt {A B} (f : A -> option B) (xs : list A) : option (list B) :=
  match xs with
  | [] => Some []
  | x :: xs' =>
      match f x, map_opt f xs' with Some y, Some ys => Some (y :: ys) | _, _ => None end
  end.

Definition as_list {B} (f : json -> option B) (j : option json) : option (list B) :=
  match j with Some (JArr xs) => map_opt f xs | _ => None end.

(** Modelled from the spec: the loaded-state of a ModelDescriptor (3). *)
Inductive load_state := NotLoaded | Loading | Loaded | Unloading.

Definition load_state_str (s : load_state) : string :=
  match s with
  | NotLoaded => "not_loaded" | Loading => "loading"
  | Loaded => "loaded" | Unloading => "unloading"
  end.

Definition parse_load_state (s : string) : option load_state :=
  if String.eqb s "not_loaded" then Some NotLoaded
  else if String.eqb s "loading" then Some Loading
  else if String.eqb s "loaded" then Some Loaded
  else if String.eqb s "unloading" then Some Unloading
  else None.

Record descriptor := mk_descriptor { ident : string; state : load_state }.

(** An HTTP request as the transport sends it. *)
Record request := mk_request { method : string; path : string; body : option json }.

(** Modelled from the spec: what the network does with a request to the
    configured base URL (4.1): the server answers, the connection is
    refused, the host name does not resolve, or no answer comes before the
    deadline. *)
Inductive reach := Up | Refused | DnsFailure | NoAnswer.

(** The world a client call runs against: the network, the server's model
    table, and the log of the requests the transport has sent. *)
Record world := mk_world {
  net : reach;
  table : gmap string load_state;
  sent : list request
}.

(** Client calls: state passing over the world, failing with [error]. *)
Definition M (A : Type) := world -> result A * world.

Definition ret {A} (a : A) : M A := fun w => (Ok a, w).

Definition bind {A B} (c : M A) (k : A -> M B) : M B :=
  fun w => match c w with
           | (Ok a, w') => k a w'
           | (Err e, w') => (Err e, w')
           end.

Definition lift {A} (r : result A) : M A := fun w => (r, w).

Notation "x <-- c ;; k" := (bind c (fun x => k)) (at level 99, c at next level, right associativity).

Section Backend.

(** Modelled from the spec: the server behind Backend Client A (4.4, 6).
    [gen m msgs t] is the text model [m] produces for the conversation
    [msgs] at temperature [t], fragment by fragment; [emb m s] is the
    embedding model [m] gives the text [s]. *)
Variable gen : string -> list (string * string) -> Q -> list string.
Variable emb : string -> string -> list Q.

Record response := mk_response { status : Z; lines : list json }.

Definition default_temperature : Q := 8 # 10.

Definition err_body (msg : string) : list json := [JObj [("error", JStr msg)]].

(** One newline-delimited frame of a generation response: the text under
    ["response"] (generate) or ["message"]["content"] (chat), the ["done"]
    flag, and on the final frame the aggregate count. *)
Definition frame (chat : bool) (text : string) (done : bool) (count : nat) : json :=
  JObj ((if chat then ("message", JObj [("role", JStr "assistant"); ("content", JStr text)])
         else ("response", JStr text))
        :: ("done", JBool done)
        :: (if done then [("eval_count", JNum (inject_Z (Z.of_nat count)))] else [])).

Definition generation_lines (chat stream : bool) (toks : list string) : list json :=
  if stream then map (fun t => frame chat t false 0) toks ++ [frame chat "" true (length toks)]
  else [frame chat (String.concat "" toks) true (length toks)].

Definition parse_message (j : json) : option (string * string) :=
  match as_str (field "role" j), as_str (field "content" j) with
  | Some r, Some c => Some (r, c)
  | _, _ => None
  end.

(** A generation or chat call: an unknown model is a 404; a model that is
    used becomes loaded, or starts unloading when [keep_alive] is ["0"]. *)
Definition serve_generation (chat : bool) (tbl : gmap string load_state) (b : json)
  : response * gmap string load_state :=
  match as_str (field "model" b) with
  | None => (mk_response 400 (err_body "model is required"), tbl)
  | Some m =>
      match tbl !! m with
      | None => (mk_response 404 (err_body ("model '" +:+ m +:+ "' not found")), tbl)
      | Some _ =>
          let msgs :=
            if chat then as_list parse_message (field "messages" b)
            else option_map (fun p => if String.eqb p "" then [] else [("user", p)])
                   (as_str (field "prompt" b)) in
          match msgs with
          | None => (mk_response 400 (err_body "invalid request"), tbl)
          | Some msgs =>
              let t := default default_temperature (as_num (field "temperature" b)) in
              let stream := default true (as_bool (field "stream" b)) in
              let toks := match msgs with [] => [] | _ => gen m msgs t end in
              let st := if bool_decide (as_str (field "keep_alive" b) = Some "0")
                        then Unloading else Loaded in
              (mk_response 200 (generation_lines chat stream toks), <[m := st]> tbl)
          end
      end
  end.

Definition embed_inputs (j : option json) : option (list string) :=
  match j with
  | Some (JStr s) => Some [s]
  | _ => as_list (fun x => as_str (Some x)) j
  end.

Definition serve_embed (tbl : gmap string load_state) (b : json) : response :=
  match as_str (field "model" b), embed_inputs (field "input" b) with
  | Some m, Some xs =>
      match tbl !! m with
      | None => mk_response 404 (err_body ("model '" +:+ m +:+ "' not found"))
      | Some _ =>
          mk_response 200
            [JObj [("embeddings", JArr (map (fun s => JArr (map JNum (emb m s))) xs))]]
      end
  | _, _ => mk_response 400 (err_body "invalid request")
  end.

Definition serve_tags (tbl : gmap string load_state) : response :=
  mk_response 200
    [JObj [("models", JArr (map (fun '(m, st) =>
              JObj [("name", JStr m); ("state", JStr (load_state_str st))])
              (map_to_list tbl)))]].

Definition serve (tbl : gmap string load_state) (r : request)
  : response * gmap string load_state :=
  if String.eqb (path r) "/" then (mk_response 200 [JStr "Ollama is running"], tbl)
  else if String.eqb (path r) "/api/tags" then (serve_tags tbl, tbl)
  else match body r with
       | None => (mk_response 400 (err_body "missing body"), tbl)
       | Some b =>
           if String.eqb (path r) "/api/generate" then serve_generation false tbl b
           else if String.eqb (path r) "/api/chat" then serve_generation true tbl b
           else if String.eqb (path r) "/api/embed" then (serve_embed tbl b, tbl)
           else (mk_response 404 (err_body "404 page not found"), tbl)
       end.

(** Modelled from the spec: [Transport.send] (4.1). Every call is one
    attempt, logged before the network is consulted; refused connections
    and DNS failures are [ConnectionError], a missed deadline is
    [TimeoutError], a 404 is [ModelNotFoundError], any other non-2xx is a
    [ProtocolError] carrying the backend's message or the raw status. *)
Definition classify (resp : response) : result (list json) :=
  if (200 <=? status resp) && (status resp <? 300) then Ok (lines resp)
  else if status resp =? 404 then
    Err (mk_error ModelNotFoundError
           (default "model not found" (match lines resp with
                                       | [l] => as_str (field "error" l) | _ => None end)) None)
  else match lines resp with
       | [l] => match as_str (field "error" l) with
                | Some msg => Err (mk_error ProtocolError msg None)
                | None => Err (mk_error ProtocolError "unexpected status" (Some "HTTP error"))
                end
       | _ => Err (mk_error ProtocolError "unexpected status" (Some "HTTP error"))
       end.

Definition send (r : request) : M (list json) := fun w =>
  let logged := sent w ++ [r] in
  match net w with
  | Refused => (Err (mk_error ConnectionError "connection refused" None),
                mk_world (net w) (table w) logged)
  | DnsFailure => (Err (mk_error ConnectionError "name resolution failed" None),
                   mk_world (net w) (table w) logged)
  | NoAnswer => (Err (mk_error TimeoutError "request timed out" None),
                 mk_world (net w) (table w) logged)
  | Up => let '(resp, tbl') := serve (table w) r in
          (classify resp, mk_world (net w) tbl' logged)
  end.

(** Modelled from the spec: the client's configuration (6). *)
Record config := mk_config { default_keep_alive : string }.

(** Modelled from the spec: the temperature of a GenerationRequest is
    clamped to [0.0, 2.0] (3). *)
Definition clamp_temperature (t : Q) : Q :=
  if Qle_bool 0 t then (if Qle_bool t 2 then t else 2) else 0.

(** The operations of Backend Client A (4.4, 6). *)
Inductive op :=
| OpListModels
| OpGenerate (model prompt : string) (temperature : Q) (stream : bool) (keep_alive : option string)
| OpChat (model : string) (messages : list (string * string)) (temperature : Q)
         (stream : bool) (keep_alive : option string)
| OpEmbed (model : string) (texts : list string)
| OpPreload (model : string)
| OpUnload (model : string)
| OpHealthCheck.

Definition message_json (m : string * string) : json :=
  JObj [("role", JStr m.1); ("content", JStr m.2)].

Definition keep_alive_of (cfg : config) (k : option string) : string :=
  default (default_keep_alive cfg) k.

(** The single request each operation sends. *)
Definition request_of (cfg : config) (o : op) : request :=
  match o with
  | OpListModels => mk_request "GET" "/api/tags" None
  | OpGenerate m p t s k =>
      mk_request "POST" "/api/generate"
        (Some (JObj [("model", JStr m); ("prompt", JStr p);
                     ("temperature", JNum (clamp_temperature t)); ("stream", JBool s);
                     ("keep_alive", JStr (keep_alive_of cfg k))]))
  | OpChat m msgs t s k =>
      mk_request "POST" "/api/chat"
        (Some (JObj [("model", JStr m); ("messages", JArr (map message_json msgs));
                     ("temperature", JNum (clamp_temperature t)); ("stream", JBool s);
                     ("keep_alive", JStr (keep_alive_of cfg k))]))
  | OpEmbed m xs =>
      mk_request "POST" "/api/embed"
        (Some (JObj [("model", JStr m); ("input", JArr (map JStr xs))]))
  | OpPreload m =>
      mk_request "POST" "/api/generate"
        (Some (JObj [("model", JStr m); ("prompt", JStr ""); ("stream", JBool false);
                     ("keep_alive", JStr (default_keep_alive cfg))]))
  | OpUnload m =>
      mk_request "POST" "/api/generate"
        (Some (JObj [("model", JStr m); ("prompt", JStr ""); ("stream", JBool false);
                     ("keep_alive", JStr "0")]))
  | OpHealthCheck => mk_request "GET" "/" None
  end.

(** What an operation returns to its caller. *)
Inductive value :=
| VModels (ds : list descriptor)
| VText (s : string)
| VChunks (cs : list string)
| VVectors (vs : list (list Q))
| VBool (b : bool).

Definition frame_text (chat : bool) (l : json) : option string :=
  if chat then as_str (match field "message" l with Some m => field "content" m | None => None end)
  else as_str (field "response" l).

(** Streaming: every line is parsed on its own; each non-empty fragment is
    delivered in arrival order, and the line whose ["done"] flag is true
    ends the stream. *)
Fixpoint collect_stream (chat : bool) (ls : list json) : result (list string) :=
  match ls with
  | [] => protocol_error "stream ended before the final chunk"
  | l :: ls' =>
      match frame_text chat l, as_bool (field "done" l) with
      | Some s, Some true => Ok (if String.eqb s "" then [] else [s])
      | Some s, Some false =>
          result_map (fun cs => if String.eqb s "" then cs else s :: cs)
            (collect_stream chat ls')
      | _, _ => protocol_error "malformed chunk"
      end
  end.

Definition final_text (chat : bool) (ls : list json) : result string :=
  match ls with
  | [l] => match frame_text chat l with
           | Some s => Ok s
           | None => protocol_error "malformed response"
           end
  | _ => protocol_error "malformed response"
  end.

Definition parse_descriptor (j : json) : option descriptor :=
  match as_str (field "name" j), as_str (field "state" j) with
  | Some n, Some st => option_map (mk_descriptor n) (parse_load_state st)
  | _, _ => None
  end.

Definition parse_vectors (l : json) : option (list (list Q)) :=
  as_list (fun v => as_list (fun x => as_num (Some x)) (Some v)) (field "embeddings" l).

(** A response whose vectors do not all have one dimensionality is a
    protocol error, not a silent truncation (3). *)
Definition same_dimension (vs : list (list Q)) : bool :=
  match vs with
  | [] => true
  | v :: vs' => forallb (fun u => Nat.eqb (length u) (length v)) vs'
  end.

Definition parse_reply (o : op) (ls : list json) : result value :=
  match o with
  | OpListModels =>
      match ls with
      | [l] => match as_list parse_descriptor (field "models" l) with
               | Some ds => Ok (VModels ds)
               | None => protocol_error "malformed model list"
               end
      | _ => protocol_error "malformed model list"
      end
  | OpGenerate _ _ _ s _ =>
      if s then result_map VChunks (collect_stream false ls)
      else result_map VText (final_text false ls)
  | OpChat _ _ _ s _ =>
      if s then result_map VChunks (collect_stream true ls)
      else result_map VText (final_text true ls)
  | OpEmbed _ _ =>
      match ls with
      | [l] => match parse_vectors l with
               | Some vs => if same_dimension vs then Ok (VVectors vs)
                            else protocol_error "embedding dimension mismatch"
               | None => protocol_error "malformed embeddings"
               end
      | _ => protocol_error "malformed embeddings"
      end
  | OpPreload _ | OpUnload _ => result_map (fun _ => VBool true) (final_text false ls)
  | OpHealthCheck => Ok (VBool true)
  end.

(** Every operation: one request through the transport, then the reply
    parsed; an error of either step goes to the caller as it is. *)
Definition run_op (cfg : config) (o : op) : M value :=
  ls <-- send (request_of cfg o) ;;
  lift (parse_reply o ls).

End Backend.

End Client.

(* ================================================================== *)
(** ** Image Codec

    Modelled from the spec (4.3) and the image-processing section of
    [memory-bank/ai_clients_api_reference.md] (lines 193-208): the codec
    module itself is not in the tree. *)

Module ImageCodec.
Local Open Scope nat_scope.

(** A Python [str] (a path or an encoded data URL) or [bytes]. *)
Inductive image_input := InStr (s : string) | InBytes (bs : list Byte.byte).

Inductive codec_error := UnsupportedMime | ReadFailed (p : string).

Definition b64_alphabet : string :=
  "ABCDEFGHIJKLMNOPQRSTUVWXYZabcdefghijklmnopqrstuvwxyz0123456789+/".

Definition b64_char (n : nat) : string := String.substring n 1 b64_alphabet.

(** [base64.b64encode] on a list of byte values. *)
Fixpoint b64_encode (bs : list nat) : string :=
  match bs with
  | a :: b :: c :: rest =>
      b64_char (a / 4) +:+ b64_char ((a mod 4) * 16 + b / 16)
      +:+ b64_char ((b mod 16) * 4 + c / 64) +:+ b64_char (c mod 64) +:+ b64_encode rest
  | [a; b] =>
      b64_char (a / 4) +:+ b64_char ((a mod 4) * 16 + b / 16)
      +:+ b64_char ((b mod 16) * 4) +:+ "="
  | [a] => b64_char (a / 4) +:+ b64_char ((a mod 4) * 16) +:+ "=="
  | [] => ""
  end.

Fixpoint starts_with (pre xs : list nat) : bool :=
  match pre, xs with
  | [], _ => true
  | p :: pre', x :: xs' => Nat.eqb p x && starts_with pre' xs'
  | _ :: _, [] => false
  end.

(** MIME type from the magic numbers of PNG, JPEG, GIF and WebP. *)
Definition sniff_mime (bs : list nat) : option string :=
  if starts_with [137; 80; 78; 71] bs then Some "image/png"
  else if starts_with [255; 216; 255] bs then Some "image/jpeg"
  else if starts_with [71; 73; 70; 56] bs then Some "image/gif"
  else if starts_with [82; 73; 70; 70] bs && starts_with [87; 69; 66; 80] (skipn 8 bs)
  then Some "image/webp"
  else None.

Definition lower_ascii (c : Ascii.ascii) : Ascii.ascii :=
  let n := Ascii.nat_of_ascii c in
  if (65 <=? n)%nat && (n <=? 90)%nat then Ascii.ascii_of_nat (n + 32) else c.

Fixpoint lower (s : string) : string :=
  match s with
  | EmptyString => EmptyString
  | String c s' => String (lower_ascii c) (lower s')
  end.

(** MIME type from the file extension, the fallback. *)
Definition extension_mime (p : string) : option string :=
  let p := lower p in
  if Splash.ends_with ".jpg" p || Splash.ends_with ".jpeg" p then Some "image/jpeg"
  else if Splash.ends_with ".png" p then Some "image/png"
  else if Splash.ends_with ".gif" p then Some "image/gif"
  else if Splash.ends_with ".webp" p then Some "image/webp"
  else None.

Definition data_prefix : string := "data:".

Definition data_url (mime : string) (bs : list nat) : string :=
  data_prefix +:+ mime +:+ ";base64," +:+ b64_encode bs.

Definition encode_bytes (origin : option string) (bs : list Byte.byte) : codec_error + string :=
  let ns := map Byte.to_nat bs in
  match sniff_mime ns with
  | Some m => inr (data_url m ns)
  | None =>
      match origin ≫= extension_mime with
      | Some m => inr (data_url m ns)
      | None => inl UnsupportedMime
      end
  end.

(** [encode]: an already-prefixed string passes through; any other string
    is a path whose bytes are read from [read_file]; bytes are encoded. *)
Definition encode (read_file : string -> option (list Byte.byte)) (x : image_input)
  : codec_error + string :=
  match x with
  | InStr s =>
      if String.prefix data_prefix s then inr s
      else match read_file s with
           | Some bs => encode_bytes (Some s) bs
           | None => inl (ReadFailed s)
           end
  | InBytes bs => encode_bytes None bs
  end.

End ImageCodec.

(* ================================================================== *)
(** ** The synchronous wrapper

    The pattern of [memory-bank/systemPatterns.md] (lines 160-169), used by
    [LMStudioClient.generate_response_sync] (api reference, lines 136-146):
<<
    loop = asyncio.new_event_loop()
    try:
        return loop.run_until_complete(self.async_method( *args))
    finally:
        loop.close()
>>
    [asyncio] is modelled by the thread's running loop, the loops created so
    far (with their closed flag), and the loops coroutines have run on. *)

Module Async.
Import Client.

Record thread := mk_thread {
  running : option nat;          (** the loop running in this thread, if any *)
  loops : list (nat * bool);     (** created loops and whether they are closed *)
  next_loop : nat;
  ran_on : list nat              (** the loops that have run a coroutine *)
}.

Inductive async_error := RuntimeError (msg : string).

(** [asyncio.new_event_loop()]: a fresh loop, not set as running. *)
Definition new_event_loop (th : thread) : nat * thread :=
  (next_loop th,
   mk_thread (running th) (loops th ++ [(next_loop th, false)]) (S (next_loop th)) (ran_on th)).

Definition is_closed (th : thread) (id : nat) : bool :=
  existsb (fun '(i, c) => Nat.eqb i id && c) (loops th).

(** [loop.close()] *)
Definition close (th : thread) (id : nat) : thread :=
  mk_thread (running th)
    (map (fun '(i, c) => if Nat.eqb i id then (i, true) else (i, c)) (loops th))
    (next_loop th) (ran_on th).

(** [loop.run_until_complete(coro)]: refused while another loop runs in the
    thread or when the loop is closed; otherwise the loop runs the
    coroutine to completion and stops running. *)
Definition run_until_complete {A} (id : nat) (coro : M A) (th : thread) (w : world)
  : (async_error + result A) * thread * world :=
  match running th with
  | Some _ =>
      (inl (RuntimeError "Cannot run the event loop while another loop is running"), th, w)
  | None =>
      if is_closed th id then (inl (RuntimeError "Event loop is closed"), th, w)
      else let '(r, w') := coro w in
           (inr r, mk_thread None (loops th) (next_loop th) (ran_on th ++ [id]), w')
  end.

(** [sync_method]: new loop, run to completion, close in [finally]. *)
Definition sync_method {A} (coro : M A) (th : thread) (w : world)
  : (async_error + result A) * thread * world :=
  let '(id, th1) := new_event_loop th in
  let '(r, th2, w') := run_until_complete id coro th1 w in
  (r, close th2 id, w').

(** [await coro] from a coroutine running on the caller's loop [L]. *)
Definition await_on {A} (L : nat) (coro : M A) (th : thread) (w : world)
  : result A * thread * world :=
  let '(r, w') := coro w in
  (r, mk_thread (running th) (loops th) (next_loop th) (ran_on th ++ [L]), w').

Section Generate.
Variable gen : string -> list (string * string) -> Q -> list string.
Variable emb : string -> string -> list Q.
Variable cfg : config.

(** Modelled from the spec: [generate_response(prompt, model, temperature)]
    returns the final text of a non-streamed generation (4.5). *)
Definition generate_response (prompt model : string) (temperature : Q) : M value :=
  run_op gen emb cfg (OpGenerate model prompt temperature false None).

Definition generate_response_sync (prompt model : string) (temperature : Q) :=
  sync_method (generate_response prompt model temperature).

End Generate.

End Async.

(* ================================================================== *)
(** ** Observations and concrete settings used by the properties *)

Module Observe.

Section SplashObs.
Import Splash.

(** The interpreter [launch_main_app] starts. *)
Definition chosen_interpreter (env : Env) : string :=
  if path_exists env (pythonw env) then pythonw env else "pythonw".

Definition anim_events : list event :=
  [EvAnimStart 0 0; EvAnimStart 200 1; EvAnimStart 400 2].

(** A machine with no [.venv] and no [pythonw] on PATH. *)
Definition env_no_interpreter : Env :=
  {| script_dir := "/home/u/LifAi2"; os_sep := "/"; sys_platform := "linux";
     path_exists := fun _ => false; can_start := fun _ => false |}.

End SplashObs.

(** A file system holding the first bytes of a PNG image as [cat.png]. *)
Definition demo_read_file (p : string) : option (list Byte.byte) :=
  if String.eqb p "cat.png"
  then Some [Byte.x89; Byte.x50; Byte.x4e; Byte.x47; Byte.x0d; Byte.x0a]
  else None.

Section ClientObs.
Import Client.

Definition nonempty (s : string) : bool := negb (String.eqb s "").

(** Streamed and batch results of one request. *)
Definition stream_matches_batch (rs rb : result value) : Prop :=
  match rs, rb with
  | Ok (VChunks cs), Ok (VText s) => String.concat "" cs = s
  | Err e1, Err e2 => e1 = e2
  | _, _ => False
  end.

(** The kind the transport gives a network failure. *)
Definition failure_kind (r : reach) : option err_kind :=
  match r with
  | Up => None
  | Refused | DnsFailure => Some ConnectionError
  | NoAnswer => Some TimeoutError
  end.

Definition descriptors (tbl : gmap string load_state) : list descriptor :=
  map (fun '(m, st) => mk_descriptor m st) (map_to_list tbl).

End ClientObs.

Section AsyncObs.
Import Client Async.

(** Every loop id a thread has handed out is below [next_loop]. *)
Definition ids_below (th : thread) : Prop :=
  Forall (fun ic => (fst ic < next_loop th)%nat) (loops th).

(** A concrete setting: a server that knows ["m1"] and answers ["4"], and
    a thread whose loop 0 is running. *)
Definition demo_gen : string -> list (string * string) -> Q -> list string :=
  fun _ _ _ => ["4"].
Definition demo_emb : string -> string -> list Q :=
  fun _ s => [inject_Z (Z.of_nat (String.length s)); 1%Q].
Definition demo_cfg : config := mk_config "5m".
Definition demo_world : world := mk_world Up {[ "m1" := NotLoaded ]} [].
Definition demo_thread : thread := mk_thread (Some 0%nat) [(0%nat, false)] 1 [].

(** The same server behind a refused connection, and behind a deadline
    that passes; a thread with no running loop. *)
Definition demo_refused_world : world := mk_world Refused {[ "m1" := NotLoaded ]} [].
Definition demo_timeout_world : world := mk_world NoAnswer {[ "m1" := NotLoaded ]} [].
Definition demo_idle_thread : thread := mk_thread None [] 0 [].

End AsyncObs.

End Observe.

(* ================================================================== *)
(** ** The splash window of [splash.pyw]: placement, shadow and dots *)

Module SplashWidget.

(** [self.setFixedSize(280, 180)] (line 49). *)
Definition splash_width : Z := 280.
Definition splash_height : Z := 180.

(** [self.move((screen.width() - self.width()) // 2,
               (screen.height() - self.height()) // 2)] (lines 52-55);
    Python's [//] rounds toward minus infinity, as [Z.div] does. *)
Definition center_pos (screen_w screen_h : Z) : Z * Z :=
  ((screen_w - splash_width) / 2, (screen_h - splash_height) / 2).

(** One [painter.drawRoundedRect(x, y, w, h, 16, 16)] of [paintEvent],
    with the opacity set just before it. *)
Record shadow_rect := mk_shadow {
  sh_opacity : Q; sh_x : Z; sh_y : Z; sh_w : Z; sh_h : Z; sh_rx : Z; sh_ry : Z
}.

(** Iteration [i] of the loop of [SplashScreen.paintEvent] (lines 166-180):
    [opacity = 0.02 * (5 - i)], [offset = i * 2]; the float product is
    taken as the exact rational. *)
Definition shadow (w h : Z) (i : nat) : shadow_rect :=
  let offset := Z.of_nat i * 2 in
  mk_shadow ((2 # 100) * inject_Z (5 - Z.of_nat i)) offset offset
    (w - offset * 2) (h - offset * 2) 16 16.

(** [for i in range(5)] over a widget of size [w] x [h]. *)
Definition paint_event (w h : Z) : list shadow_rect := map (shadow w h) (seq 0 5).






Section Dots.
(** The easing curve ([QEasingCurve.Type.InOutSine]) as a function of the
    progress. *)
Variable easing : Q -> Q.



End Dots.

End SplashWidget.

(* ================================================================== *)
(** ** The Windows launchers: [launch.bat] and the silent VBScript
    launcher ([unnamed/part_000], [unnamed/part_001]) *)

Module Launchers.
Import Stdlib.Strings.Ascii Stdlib.Strings.String.

Definition dq : ascii := "034"%char.
Definition bs : ascii := "092"%char.

(** The VBScript literal of four quote characters: a string holding one double quote. *)
Definition dq_str : string := String dq EmptyString.

(** The VBScript expression that wraps [s] in double quotes. *)
Definition vbs_quote (s : string) : string := dq_str +:+ s +:+ dq_str.

(** The paths the VBScript builds from [scriptDir] (lines 11-12 and 21). *)
Definition venv_pythonw (scriptDir : string) : string :=
  scriptDir +:+ "\.venv\Scripts\pythonw.exe".
Definition alt_venv_pythonw (scriptDir : string) : string :=
  scriptDir +:+ "\venv\Scripts\pythonw.exe".
Definition splash_script (scriptDir : string) : string :=
  scriptDir +:+ "\splash.pyw".

(** A call [WshShell.Run command, windowStyle, waitOnReturn]. *)
Record run_call := mk_run { run_command : string; run_window : Z; run_wait : bool }.

(** The VBScript launcher (lines 14-27); [file_exists] is
    [FSO.FileExists]. *)
Definition vbs_launcher (file_exists : string -> bool) (scriptDir : string) : run_call :=
  let venvPythonw := venv_pythonw scriptDir in
  let splashScript := splash_script scriptDir in
  if file_exists venvPythonw
  then mk_run (vbs_quote venvPythonw +:+ " " +:+ vbs_quote splashScript) 0 false
  else
    let venvPythonw := alt_venv_pythonw scriptDir in
    if file_exists venvPythonw
    then mk_run (vbs_quote venvPythonw +:+ " " +:+ vbs_quote splashScript) 0 false
    else mk_run ("pythonw " +:+ vbs_quote splashScript) 0 false.

(** What [launch.bat] does: an [echo], or [start "" prog args]. *)
Inductive bat_step :=
| BatEcho (msg : string)
| BatStart (title prog : string) (args : list string).

(** [launch.bat] (lines 5-18), run from [scriptDir] (no trailing
    backslash): after [cd /d "%~dp0"], relative paths name files below
    [scriptDir]. *)
Definition bat_resolve (scriptDir rel : string) : string := scriptDir +:+ "\" +:+ rel.

Definition launch_bat (file_exists : string -> bool) (scriptDir : string) : list bat_step :=
  if file_exists (bat_resolve scriptDir ".venv\Scripts\pythonw.exe")
  then [BatStart "" ".venv\Scripts\pythonw.exe" ["run.pyw"]]
  else if file_exists (bat_resolve scriptDir "venv\Scripts\pythonw.exe")
  then [BatStart "" "venv\Scripts\pythonw.exe" ["run.pyw"]]
  else [BatEcho "Virtual environment not found. Using system Python...";
        BatStart "" "pythonw" ["run.pyw"]].

(** How the C runtime of the started program ([pythonw.exe]) splits its
    command line into [argv] (the Universal CRT's [parse_command_line]). *)
Definition is_blank (c : ascii) : bool :=
  Ascii.eqb c " "%char || Ascii.eqb c "009"%char.

(** The program name: double quotes toggle quoting and are dropped; it
    ends at the first blank outside quotes. *)
Fixpoint prog_name (cs : list ascii) (inq : bool) (acc : list ascii)
  : list ascii * list ascii :=
  match cs with
  | [] => (rev acc, [])
  | c :: cs' =>
      if Ascii.eqb c dq then prog_name cs' (negb inq) acc
      else if is_blank c && negb inq then (rev acc, cs')
      else prog_name cs' inq (c :: acc)
  end.

(** The pending backslashes [n] written out to the argument being built
    ([cur], reversed; [None] when no argument has started). *)
Definition flush (n : nat) (cur : option (list ascii)) : option (list ascii) :=
  if Nat.eqb n 0 then cur else Some (repeat bs n ++ default [] cur).

Definition push_arg (cur : option (list ascii)) (acc : list string) : list string :=
  match cur with
  | Some a => acc ++ [string_of_list_ascii (rev a)]
  | None => acc
  end.

(** The arguments: [2n] backslashes before a quote give [n] backslashes
    and the quote toggles quoting, [2n+1] give [n] backslashes and a
    literal quote; inside quotes [""] is a literal quote; other
    backslashes are literal; blanks outside quotes separate arguments. *)
Fixpoint args_go (cs : list ascii) (n : nat) (inq : bool) (cur : option (list ascii))
    (acc : list string) : list string :=
  match cs with
  | [] => push_arg (flush n cur) acc
  | c :: cs' =>
      if Ascii.eqb c bs then args_go cs' (S n) inq cur acc
      else if Ascii.eqb c dq then
        let half := repeat bs (Nat.div2 n) ++ default [] cur in
        if Nat.odd n then args_go cs' 0 inq (Some (dq :: half)) acc
        else if inq then
          match cs' with
          | c2 :: cs'' =>
              if Ascii.eqb c2 dq then args_go cs'' 0 true (Some (dq :: half)) acc
              else args_go cs' 0 false (Some half) acc
          | [] => args_go cs' 0 false (Some half) acc
          end
        else args_go cs' 0 true (Some half) acc
      else if is_blank c && negb inq then args_go cs' 0 false None (push_arg (flush n cur) acc)
      else args_go cs' 0 inq (Some (c :: default [] (flush n cur))) acc
  end.

Definition crt_argv (cmd : string) : list string :=
  let '(p, rest) := prog_name (list_ascii_of_string cmd) false [] in
  string_of_list_ascii p :: args_go rest 0 false None [].

Definition has_quote (s : string) : bool :=
  existsb (fun c => Ascii.eqb c dq) (list_ascii_of_string s).

End Launchers.

(* ================================================================== *)
(** ** The prompt-order pattern of the prompt editor
    ([memory-bank/systemPatterns.md], lines 150-158) *)

Module PromptOrder.

Section Order.
Context {V : Type}.

(** [[prompts[id]["name"] for id in saved_order if id in prompts]]:
    [None] is the [KeyError('name')] raised by a listed prompt that has
    no ["name"] field. *)
Fixpoint ordered_names (prompts : gmap string (gmap string V)) (saved_order : list string)
  : option (list V) :=
  match saved_order with
  | [] => Some []
  | id :: ids =>
      match prompts !! id with
      | None => ordered_names prompts ids
      | Some p =>
          match p !! "name" with
          | None => None
          | Some n => match ordered_names prompts ids with
                      | Some ns => Some (n :: ns)
                      | None => None
                      end
          end
      end
  end.

End Order.

(** Two prompts of the prompt editor, each with its ["name"] field, and the
    order in which the editor saved them. *)
Definition demo_prompts : gmap string (gmap string string) :=
  {[ "p1" := {[ "name" := "Summarize" ]}; "p2" := {[ "name" := "Translate" ]} ]}.

Definition demo_saved_order : list string := ["p2"; "p1"].

End PromptOrder.

(* ================================================================== *)
(** ** A Windows machine for the launcher properties *)

Module LauncherObs.
Import Splash.

(** An install in [C:\Users\me\LifAi2] with a [venv] folder and no
    [.venv] folder. *)
Definition win_dir : string := "C:\Users\me\LifAi2".

Definition env_venv_only : Env :=
  {| script_dir := win_dir; os_sep := "\"; sys_platform := "win32";
     path_exists := fun p => String.eqb p (win_dir +:+ "\venv\Scripts\pythonw.exe");
     can_start := fun _ => true |}.

End LauncherObs.

(* ================================================================== *)
(** * Properties *)

Module SplashFacts.
Import Splash Observe.

Lemma launch_main_app_argv env :
  launch_main_app env =
  popen env [chosen_interpreter env; run_script env] (creationflags env).
Proof. unfold launch_main_app, chosen_interpreter. by destruct (path_exists env (pythonw env)). Qed.

(** The timers [main] has set when [app.exec()] starts. *)
Lemma main_timers :
  single_shot 0 3000 CbQuit (single_shot 0 500 CbLaunch (setup_animation [])) =
  [(0, CbAnimStart 0); (200, CbAnimStart 1); (400, CbAnimStart 2);
   (500, CbLaunch); (3000, CbQuit)].
Proof. reflexivity. Qed.

(** C10 (amended): [main] starts the three dot animations at 0, 200 and
    400 ms, calls [launch_main_app] at 500 ms, which passes
    [[interpreter; run.pyw]] to [Popen] with the venv's [pythonw.exe] as
    interpreter when that path exists and the bare ["pythonw"] otherwise
    (whether [run.pyw] exists plays no part). When [Popen] starts the
    interpreter, [app.quit] runs at 3000 ms and the process exits with 0;
    when [Popen] raises, the exception leaves the timer callback unhandled
    and the process aborts at 500 ms, so the 3000 ms quit never runs. *)
Theorem main_launch_then_quit env :
  main env =
  (if can_start env (chosen_interpreter env)
   then (anim_events ++ [EvSpawn 500 [chosen_interpreter env; run_script env]
                           (creationflags env); EvQuit 3000], Exited 0)
   else (anim_events ++ [EvUnhandled 500 [chosen_interpreter env; run_script env]],
         Aborted)).
Proof.
  unfold main. rewrite main_timers. cbn -[launch_main_app chosen_interpreter].
  rewrite launch_main_app_argv. unfold popen.
  by destruct (can_start env (chosen_interpreter env)).
Qed.

(** C10 (counterexample): there the launch raises, the process aborts at
    500 ms, and no quit at 3000 ms happens. *)
Lemma main_no_quit_when_popen_raises :
  ~ In (EvQuit 3000) (fst (main env_no_interpreter)) /\
  snd (main env_no_interpreter) = Aborted.
Proof. split; [intros H; vm_compute in H; intuition discriminate | reflexivity]. Qed.

End SplashFacts.

Module ErrorFacts.
Import Errors.

(** Case split on membership in a concrete list of classes. *)
Ltac in_cases H := simpl in H; repeat (destruct H as [<- | H]); try contradiction.

(** C3 (counterexample): the handler set the API reference writes for the
    Ollama client catches no error of the LM Studio client (and the other
    way round), and no declared class stands for a protocol error. *)
Lemma one_handler_set_misses_other_backend :
  first_handler (handler_set Ollama) LMStudioConnectionError = None /\
  first_handler (handler_set LMStudio) OllamaConnectionError = None /\
  Forall (fun c => kind_of c <> Some KProtocol) all_classes.
Proof.
  split; [reflexivity | split; [reflexivity |]].
  repeat constructor; discriminate.
Qed.

(** C3 (amended): each client declares its own exception family: a base
    class ([OllamaError], [LMStudioError]) deriving from [Exception], with
    a connection, a timeout and a model-not-found subclass; there is no
    protocol-error class. The families share no class: the only classes
    that catch errors of both backends are [Exception] and
    [BaseException]. Each backend's four-clause handler set (three kinds,
    then the base) catches every error of that backend. *)
Theorem per_backend_exception_families :
  (forall b c, In c (family b) ->
     issubclass c (base_error b) = true /\ issubclass c PyException = true) /\
  (forall c d h, In c (family Ollama) -> In d (family LMStudio) ->
     issubclass c h = true -> issubclass d h = true ->
     h = PyException \/ h = PyBaseException) /\
  (forall b c, In c (family b) -> kind_of c <> Some KProtocol) /\
  (forall b c, In c (family b) -> first_handler (handler_set b) c <> None) /\
  (forall b, map kind_of (handler_set b) =
             [Some KConnection; Some KTimeout; Some KModelNotFound; None]).
Proof.
  split; [| split; [| split; [| split]]].
  - intros b c Hc. destruct b; in_cases Hc; split; reflexivity.
  - intros c d h Hc Hd H1 H2. in_cases Hc; in_cases Hd;
      destruct h; try discriminate; auto.
  - intros b c Hc. destruct b; in_cases Hc; discriminate.
  - intros b c Hc. destruct b; in_cases Hc; discriminate.
  - intros b. destruct b; reflexivity.
Qed.

Lemma per_backend_exception_families_witness :
  first_handler (handler_set LMStudio) LMStudioTimeoutError <> None.
Proof.
  apply (proj1 (proj2 (proj2 (proj2 per_backend_exception_families))) LMStudio).
  simpl. right. right. left. reflexivity.
Defined.

End ErrorFacts.

Module ClientFacts.
Import Client Observe.

Lemma string_app_nil_r (s : string) : s +:+ "" = s.
Proof. induction s as [|c s IH]; [reflexivity | exact (f_equal (String c) IH)]. Qed.

Lemma concat_empty_sep (l : list string) :
  String.concat "" l = fold_right String.append "" l.
Proof.
  induction l as [|a l IH]; [reflexivity |].
  destruct l as [|b l]; simpl.
  - by rewrite string_app_nil_r.
  - simpl in IH. by rewrite IH.
Qed.

Lemma concat_filter_nonempty (toks : list string) :
  String.concat "" (List.filter nonempty toks) = String.concat "" toks.
Proof.
  rewrite !concat_empty_sep.
  induction toks as [|t toks IH]; [reflexivity |]. simpl.
  unfold nonempty at 1. destruct (String.eqb_spec t ""); simpl; rewrite IH; [by subst | done].
Qed.

Lemma frame_text_frame chat t d n : frame_text chat (frame chat t d n) = Some t.
Proof. by destruct chat, d. Qed.

Lemma frame_done chat t d n : as_bool (field "done" (frame chat t d n)) = Some d.
Proof. by destruct chat, d. Qed.

(** The stream of frames delivers the non-empty fragments in order. *)
Lemma collect_stream_frames chat toks n :
  collect_stream chat (map (fun t => frame chat t false 0) toks ++ [frame chat "" true n])
  = Ok (List.filter nonempty toks).
Proof.
  destruct chat; induction toks as [|t toks IH]; simpl; try done;
    rewrite IH; simpl; unfold nonempty; by destruct (String.eqb t "").
Qed.

Lemma final_text_frame chat s n : final_text chat [frame chat s true n] = Ok s.
Proof. unfold final_text. by rewrite frame_text_frame. Qed.

Lemma classify_ok ls : classify (mk_response 200 ls) = Ok ls.
Proof. reflexivity. Qed.

Lemma parse_messages_json msgs :
  map_opt parse_message (map message_json msgs) = Some msgs.
Proof. induction msgs as [|[r c] msgs IH]; [done |]. simpl. by rewrite IH. Qed.

(** C1: for every generate or chat request, the chunks the streaming call
    delivers, concatenated in arrival order, are the text the non-streaming
    call returns; when one fails the other fails with the same error. *)
Theorem stream_batch_equivalence gen emb cfg w :
  (forall m p t k,
     stream_matches_batch (fst (run_op gen emb cfg (OpGenerate m p t true k) w))
                          (fst (run_op gen emb cfg (OpGenerate m p t false k) w))) /\
  (forall m msgs t k,
     stream_matches_batch (fst (run_op gen emb cfg (OpChat m msgs t true k) w))
                          (fst (run_op gen emb cfg (OpChat m msgs t false k) w))).
Proof.
  split; intros; unfold run_op, bind, send, lift, serve, serve_generation;
    destruct (net w); simpl; try done;
    destruct (table w !! m); simpl; try done.
  - destruct (String.eqb p ""); simpl;
      rewrite ?collect_stream_frames, ?final_text_frame; simpl;
      by rewrite ?concat_filter_nonempty.
  - rewrite parse_messages_json. simpl.
    rewrite collect_stream_frames. simpl.
    by rewrite concat_filter_nonempty.
Qed.

(** Every operation logs exactly its one request. *)
Lemma run_op_log gen emb cfg o w :
  sent (snd (run_op gen emb cfg o w)) = sent w ++ [request_of cfg o].
Proof.
  unfold run_op, bind, send, lift.
  destruct (net w); simpl; try done.
  destruct (serve gen emb (table w) (request_of cfg o)) as [resp tbl'].
  by destruct (classify resp).
Qed.

(** A network failure is returned as it is, with the transport's kind. *)
Lemma run_op_network_failure gen emb cfg o w k :
  failure_kind (net w) = Some k ->
  exists msg, fst (run_op gen emb cfg o w) = Err (mk_error k msg None).
Proof.
  unfold run_op, bind, send, lift.
  destruct (net w); simpl; intros H; inversion H; eexists; reflexivity.
Qed.

(** C9: no operation retries: every call, whatever its outcome, sends
    exactly its one request, and a network failure (connection or timeout)
    comes back to the caller as an error of that kind. *)
Theorem one_attempt_per_call gen emb cfg o w :
  sent (snd (run_op gen emb cfg o w)) = sent w ++ [request_of cfg o] /\
  (forall k, failure_kind (net w) = Some k ->
     exists msg, fst (run_op gen emb cfg o w) = Err (mk_error k msg None)).
Proof.
  split; [apply run_op_log |].
  intros k Hk. by apply run_op_network_failure.
Qed.

(** C2: against a base URL whose server refuses the connection or whose
    host name does not resolve, every operation (list models, generate,
    chat, embed, preload, unload, health check) fails with
    [ConnectionError]. *)
Theorem unreachable_is_connection_error gen emb cfg o w :
  net w = Refused \/ net w = DnsFailure ->
  exists msg, fst (run_op gen emb cfg o w) = Err (mk_error ConnectionError msg None).
Proof.
  intros H. apply run_op_network_failure.
  by destruct H as [-> | ->].
Qed.

(** C5: the temperature of every generate and chat request is sent, as
    [clamp_temperature t]: below 0.0 it becomes 0.0, above 2.0 it becomes
    2.0, and inside [0.0, 2.0] it is sent unchanged. *)
Theorem temperature_clamped gen emb cfg w t :
  (forall o, (exists m p s k, o = OpGenerate m p t s k) \/
             (exists m msgs s k, o = OpChat m msgs t s k) ->
     exists b, sent (snd (run_op gen emb cfg o w)) = sent w ++ [request_of cfg o] /\
               body (request_of cfg o) = Some b /\
               field "temperature" b = Some (JNum (clamp_temperature t))) /\
  (t < 0 -> clamp_temperature t = 0)%Q /\
  (2 < t -> clamp_temperature t = 2)%Q /\
  (0 <= t <= 2 -> clamp_temperature t = t)%Q.
Proof.
  unfold clamp_temperature.
  split; [| split; [| split]].
  - intros o [(m & p & s & k & ->) | (m & msgs & s & k & ->)];
      eexists; (split; [apply run_op_log | split; reflexivity]).
  - intros Ht. destruct (Qle_bool 0 t) eqn:E; [| done].
    apply Qle_bool_iff in E. exfalso. by apply (Qlt_not_le t 0).
  - intros Ht.
    assert (H0 : Qle_bool 0 t = true).
    { apply Qle_bool_iff, Qlt_le_weak, (Qlt_trans _ 2); [by compute | exact Ht]. }
    rewrite H0. destruct (Qle_bool t 2) eqn:E; [| done].
    apply Qle_bool_iff in E. exfalso. by apply (Qlt_not_le 2 t).
  - intros [H0 H2]. apply Qle_bool_iff in H0, H2. by rewrite H0, H2.
Qed.

Lemma map_opt_map {A B C} (f : B -> option C) (g : A -> B) (h : A -> C) (xs : list A) :
  (forall x, f (g x) = Some (h x)) -> map_opt f (map g xs) = Some (map h xs).
Proof. intros H. induction xs as [|x xs IH]; [done |]. simpl. by rewrite H, IH. Qed.

Lemma map_opt_vectors (f : string -> list Q) (xs : list string) :
  map_opt (fun v => as_list (fun x => as_num (Some x)) (Some v))
    (map (fun s => JArr (map JNum (f s))) xs) = Some (map f xs).
Proof.
  apply map_opt_map. intros x. simpl.
  rewrite (map_opt_map _ _ (fun q => q)); [by rewrite map_id | done].
Qed.

Lemma lookup_map_some {A B} (f : A -> B) (xs : list A) i x :
  xs !! i = Some x -> map f xs !! i = Some (f x).
Proof.
  revert i. induction xs as [|y xs IH]; intros [|i] H; simpl in *; try done.
  - by inversion H.
  - by apply IH.
Qed.

Lemma same_dimension_fixed (vs : list (list Q)) d :
  Forall (fun v => length v = d) vs -> same_dimension vs = true.
Proof.
  destruct vs as [|v vs]; [done |]. intros Hall. apply Forall_cons in Hall as [Hv Hvs].
  simpl. apply forallb_forall. intros u Hu. apply Nat.eqb_eq.
  rewrite Forall_forall in Hvs. rewrite Hvs, Hv; [done |]. by apply list_elem_of_In.
Qed.

(** C6: with the server up and the model present, a model whose vectors
    have a fixed, non-zero dimensionality [d] makes one batched embed call
    over [n] texts return [n] vectors, the [i]-th being the embedding of
    the [i]-th text, all of length [d]. *)
Theorem embed_batch_order gen emb cfg w m texts d :
  net w = Up -> is_Some (table w !! m) -> (0 < d)%nat ->
  (forall s, length (emb m s) = d) ->
  exists vs, fst (run_op gen emb cfg (OpEmbed m texts) w) = Ok (VVectors vs) /\
    length vs = length texts /\
    (forall i s, texts !! i = Some s -> vs !! i = Some (emb m s)) /\
    Forall (fun v => length v = d /\ (0 < length v)%nat) vs.
Proof.
  intros Hup [st Hm] Hd Hdim.
  assert (Hall : Forall (fun v => length v = d) (map (emb m) texts)).
  { apply List.Forall_forall. intros v Hv. apply in_map_iff in Hv.
    destruct Hv as (s & <- & _). apply Hdim. }
  exists (map (emb m) texts).
  unfold run_op, bind, send, lift, serve, serve_embed. rewrite Hup. simpl.
  rewrite (map_opt_map _ JStr (fun x => x)) by done. rewrite map_id, Hm. simpl. unfold parse_vectors. simpl.
  rewrite map_opt_vectors, (same_dimension_fixed _ d Hall).
  split; [done | split; [apply length_map | split]].
  - intros i s Hs. by apply lookup_map_some.
  - eapply Forall_impl; [exact Hall |]. simpl. intros v ->. split; [done | lia].
Qed.

Lemma list_models_up gen emb cfg w :
  net w = Up ->
  fst (run_op gen emb cfg OpListModels w) = Ok (VModels (descriptors (table w))).
Proof.
  intros Hup. unfold run_op, bind, send, lift, serve, serve_tags. rewrite Hup. simpl.
  rewrite (map_opt_map _ _ (fun '(m, st) => mk_descriptor m st)); [done |].
  intros [m st]. by destruct st.
Qed.

(** What a successful unload leaves behind: the model starts unloading. *)
Lemma unload_effect gen emb cfg w m :
  fst (run_op gen emb cfg (OpUnload m) w) = Ok (VBool true) ->
  net (snd (run_op gen emb cfg (OpUnload m) w)) = Up /\
  table (snd (run_op gen emb cfg (OpUnload m) w)) = <[m := Unloading]> (table w).
Proof.
  unfold run_op, bind, send, lift, serve, serve_generation.
  destruct (net w) eqn:Hn; simpl; try discriminate.
  destruct (table w !! m); simpl; [done | discriminate].
Qed.

(** C8: [unload m] sends a generation request for [m] with an empty
    prompt and [keep_alive] ["0"]; once it has succeeded, the model list
    fetched right after reports [m], and reports it as unloading or not
    loaded, never as loaded. *)
Theorem unload_then_list_not_loaded gen emb cfg w m :
  request_of cfg (OpUnload m) =
    mk_request "POST" "/api/generate"
      (Some (JObj [("model", JStr m); ("prompt", JStr ""); ("stream", JBool false);
                   ("keep_alive", JStr "0")])) /\
  (fst (run_op gen emb cfg (OpUnload m) w) = Ok (VBool true) ->
   exists ds,
     fst (run_op gen emb cfg OpListModels (snd (run_op gen emb cfg (OpUnload m) w)))
       = Ok (VModels ds) /\
     (exists d, In d ds /\ ident d = m) /\
     (forall d, In d ds -> ident d = m -> state d = NotLoaded \/ state d = Unloading)).
Proof.
  split; [reflexivity |].
  intros H. apply unload_effect in H as [Hup Htbl].
  eexists. split; [by apply list_models_up |]. rewrite Htbl. unfold descriptors.
  split.
  - exists (mk_descriptor m Unloading). split; [| done].
    apply (in_map_iff (fun '(m, st) => mk_descriptor m st)).
    exists (m, Unloading). split; [done |].
    apply list_elem_of_In, elem_of_map_to_list. apply lookup_insert_eq.
  - intros d Hd Hid. apply in_map_iff in Hd as ([m' st] & <- & Hin).
    simpl in Hid. subst m'. right. simpl.
    apply list_elem_of_In, elem_of_map_to_list in Hin.
    rewrite lookup_insert_eq in Hin. by inversion Hin.
Qed.

Lemma unreachable_is_connection_error_witness :
  net demo_refused_world = Refused /\
  exists msg, fst (run_op demo_gen demo_emb demo_cfg OpListModels demo_refused_world)
              = Err (mk_error ConnectionError msg None).
Proof.
  split; [reflexivity |].
  apply (unreachable_is_connection_error demo_gen demo_emb demo_cfg OpListModels
           demo_refused_world).
  left. reflexivity.
Defined.

Lemma one_attempt_per_call_witness :
  exists msg, fst (run_op demo_gen demo_emb demo_cfg
                     (OpChat "m1" [("user", "2+2?")] 0%Q false None) demo_timeout_world)
              = Err (mk_error TimeoutError msg None).
Proof.
  apply (proj2 (one_attempt_per_call demo_gen demo_emb demo_cfg
                  (OpChat "m1" [("user", "2+2?")] 0%Q false None) demo_timeout_world)).
  reflexivity.
Defined.

Lemma temperature_clamped_witness :
  clamp_temperature 3%Q = 2%Q /\ clamp_temperature (-1)%Q = 0%Q /\
  clamp_temperature (7 # 10)%Q = (7 # 10)%Q.
Proof.
  split; [| split].
  - apply (proj1 (proj2 (proj2 (temperature_clamped demo_gen demo_emb demo_cfg
                                  demo_world 3%Q)))).
    reflexivity.
  - apply (proj1 (proj2 (temperature_clamped demo_gen demo_emb demo_cfg
                           demo_world (-1)%Q))).
    reflexivity.
  - apply (proj2 (proj2 (proj2 (temperature_clamped demo_gen demo_emb demo_cfg
                                  demo_world (7 # 10)%Q)))).
    split; discriminate.
Defined.

Lemma embed_batch_order_witness :
  exists vs, fst (run_op demo_gen demo_emb demo_cfg (OpEmbed "m1" ["a"; "bb"]) demo_world)
             = Ok (VVectors vs) /\
    length vs = length ["a"; "bb"] /\
    (forall i s, ["a"; "bb"] !! i = Some s -> vs !! i = Some (demo_emb "m1" s)) /\
    Forall (fun v => length v = 2%nat /\ (0 < length v)%nat) vs.
Proof.
  apply (embed_batch_order demo_gen demo_emb demo_cfg demo_world "m1" ["a"; "bb"] 2).
  - reflexivity.
  - eexists. reflexivity.
  - lia.
  - intros s. reflexivity.
Defined.

Lemma unload_then_list_not_loaded_witness :
  exists ds,
    fst (run_op demo_gen demo_emb demo_cfg OpListModels
           (snd (run_op demo_gen demo_emb demo_cfg (OpUnload "m1") demo_world)))
      = Ok (VModels ds) /\
    (exists d, In d ds /\ ident d = "m1") /\
    (forall d, In d ds -> ident d = "m1" -> state d = NotLoaded \/ state d = Unloading).
Proof.
  apply (proj2 (unload_then_list_not_loaded demo_gen demo_emb demo_cfg demo_world "m1")).
  vm_compute. reflexivity.
Defined.

End ClientFacts.

Module CodecFacts.
Import ImageCodec Observe.

Lemma prefix_app (s t : string) : String.prefix s (s +:+ t) = true.
Proof.
  induction s as [|c s IH]; [by destruct t |].
  change (String.prefix (String c s) (String c (s +:+ t)) = true). cbn.
  destruct (Ascii.ascii_dec c c); [exact IH | contradiction].
Qed.

Lemma data_url_prefix mime bs : String.prefix data_prefix (data_url mime bs) = true.
Proof. apply prefix_app. Qed.

(** Everything [encode] produces is a data URL. *)
Lemma encode_bytes_prefix origin bs s :
  encode_bytes origin bs = inr s -> String.prefix data_prefix s = true.
Proof.
  unfold encode_bytes.
  destruct (sniff_mime (map Byte.to_nat bs)); [intros [= <-]; apply data_url_prefix |].
  destruct (origin ≫= extension_mime); [intros [= <-]; apply data_url_prefix | discriminate].
Qed.

Lemma encode_prefix read_file x s :
  encode read_file x = inr s -> String.prefix data_prefix s = true.
Proof.
  destruct x as [s0 | bs]; simpl; [| apply encode_bytes_prefix].
  destruct (String.prefix data_prefix s0) eqn:E; [by intros [= <-] |].
  destruct (read_file s0); [apply encode_bytes_prefix | discriminate].
Qed.

(** C4: an already-encoded data URL passes through [encode] unchanged,
    so encoding the result of a successful [encode] (of a path, of bytes
    or of a data URL) gives that result again. *)
Theorem encode_idempotent read_file :
  (forall s, String.prefix data_prefix s = true -> encode read_file (InStr s) = inr s) /\
  (forall x s, encode read_file x = inr s -> encode read_file (InStr s) = inr s).
Proof.
  assert (Hpass : forall s, String.prefix data_prefix s = true ->
                            encode read_file (InStr s) = inr s).
  { intros s Hs. simpl. by rewrite Hs. }
  split; [exact Hpass |].
  intros x s Hx. apply Hpass. by apply (encode_prefix read_file x).
Qed.

Lemma encode_idempotent_witness :
  encode demo_read_file (InStr "cat.png") = inr "data:image/png;base64,iVBORw0K" /\
  encode demo_read_file (InStr "data:image/png;base64,iVBORw0K")
    = inr "data:image/png;base64,iVBORw0K".
Proof.
  split; [vm_compute; reflexivity |].
  apply (proj2 (encode_idempotent demo_read_file) (InStr "cat.png")).
  vm_compute. reflexivity.
Defined.

End CodecFacts.

Module AsyncFacts.
Import Client Async Observe.

Lemma fresh_loop_open th :
  ids_below th -> is_closed (snd (new_event_loop th)) (next_loop th) = false.
Proof.
  unfold ids_below, is_closed, new_event_loop. simpl. intros Hb.
  rewrite existsb_app. simpl. rewrite Nat.eqb_refl, orb_false_r.
  apply not_true_is_false. intros Hex. apply existsb_exists in Hex as ([i c] & Hin & Hic).
  apply andb_true_iff in Hic as [Hi _]. apply Nat.eqb_eq in Hi. subst i.
  rewrite List.Forall_forall in Hb. apply Hb in Hin. simpl in Hin. lia.
Qed.

Lemma closed_after_close th id :
  In id (map fst (loops th)) -> is_closed (close th id) id = true.
Proof.
  unfold is_closed, close. simpl. intros Hin.
  apply existsb_exists. apply in_map_iff in Hin as ([i c] & Hi & Hin). simpl in Hi. subst i.
  exists (id, true). split; [| by rewrite Nat.eqb_refl].
  apply in_map_iff. exists (id, c). by rewrite Nat.eqb_refl.
Qed.

Lemma generate_response_text gen emb cfg p m t w v :
  fst (generate_response gen emb cfg p m t w) = Ok v -> exists s, v = VText s.
Proof.
  unfold generate_response, run_op, bind, lift.
  destruct (send gen emb _ w) as [[ls | e] w']; simpl; [| discriminate].
  destruct (final_text false ls) as [s | e]; simpl; [intros [= <-]; by eexists | discriminate].
Qed.

(** C7 (amended): called outside a running event loop, the synchronous
    wrapper runs [generate_response] on a new loop, one no earlier call
    created, and returns what [generate_response] returns (the final text
    or its error, never a chunk), leaving the world as the asynchronous
    call leaves it; the loop is closed afterwards and no loop is left
    running. Called while a loop [L] runs in the thread,
    [run_until_complete] raises [RuntimeError]: no request is made, [L]
    keeps running, and the new loop is closed. *)
Theorem sync_wrapper_private_loop gen emb cfg p m t th w :
  ids_below th ->
  (running th = None ->
     let '(r, th', w') := generate_response_sync gen emb cfg p m t th w in
     r = inr (fst (generate_response gen emb cfg p m t w)) /\
     w' = snd (generate_response gen emb cfg p m t w) /\
     ~ In (next_loop th) (map fst (loops th)) /\
     ran_on th' = ran_on th ++ [next_loop th] /\
     is_closed th' (next_loop th) = true /\
     running th' = None /\
     (forall v, r = inr (Ok v) -> exists s, v = VText s)) /\
  (forall L, running th = Some L ->
     let '(r, th', w') := generate_response_sync gen emb cfg p m t th w in
     (exists msg, r = inl (RuntimeError msg)) /\ w' = w /\
     running th' = Some L /\ ran_on th' = ran_on th /\
     is_closed th' (next_loop th) = true).
Proof.
  intros Hb.
  assert (Hnew : In (next_loop th) (map fst (loops th ++ [(next_loop th, false)]))).
  { rewrite map_app. apply in_or_app. right. left. reflexivity. }
  pose proof (fresh_loop_open th Hb) as Hf. simpl in Hf.
  unfold generate_response_sync, sync_method, run_until_complete. simpl.
  split.
  - intros Hrun. rewrite Hf, Hrun.
    destruct (generate_response gen emb cfg p m t w) as [r w'] eqn:Hg. simpl.
    split; [done | split; [done | split; [| split; [done | split; [| split; [done |]]]]]].
    + intros Hin. apply in_map_iff in Hin as ([i c] & Hi & Hin). simpl in Hi. subst i.
      unfold ids_below in Hb. rewrite List.Forall_forall in Hb. apply Hb in Hin.
      simpl in Hin. lia.
    + by apply closed_after_close.
    + intros v [= Hv]. apply (generate_response_text gen emb cfg p m t w).
      by rewrite Hg.
  - intros L Hrun. rewrite Hrun. simpl.
    split; [by eexists | split; [done | split; [done | split; [done |]]]].
    by apply closed_after_close.
Qed.

(** C7 (counterexample): from a coroutine running on loop 0, awaiting
    [generate_response] gives the model's answer, while the synchronous
    wrapper raises [RuntimeError]. *)
Lemma sync_wrapper_inside_running_loop :
  fst (fst (generate_response_sync demo_gen demo_emb demo_cfg "2+2?" "m1" 0%Q
              demo_thread demo_world))
    = inl (RuntimeError "Cannot run the event loop while another loop is running") /\
  fst (fst (await_on 0 (generate_response demo_gen demo_emb demo_cfg "2+2?" "m1" 0%Q)
              demo_thread demo_world))
    = Ok (VText "4").
Proof. split; vm_compute; reflexivity. Qed.

Lemma sync_wrapper_private_loop_witness :
  let '(r, th', w') := generate_response_sync demo_gen demo_emb demo_cfg "2+2?" "m1" 0%Q
                         demo_idle_thread demo_world in
  r = inr (fst (generate_response demo_gen demo_emb demo_cfg "2+2?" "m1" 0%Q demo_world)) /\
  w' = snd (generate_response demo_gen demo_emb demo_cfg "2+2?" "m1" 0%Q demo_world) /\
  ~ In (next_loop demo_idle_thread) (map fst (loops demo_idle_thread)) /\
  ran_on th' = ran_on demo_idle_thread ++ [next_loop demo_idle_thread] /\
  is_closed th' (next_loop demo_idle_thread) = true /\
  running th' = None /\
  (forall v, r = inr (Ok v) -> exists s, v = VText s).
Proof.
  apply (proj1 (sync_wrapper_private_loop demo_gen demo_emb demo_cfg "2+2?" "m1" 0%Q
                  demo_idle_thread demo_world (List.Forall_nil _))).
  reflexivity.
Defined.

End AsyncFacts.

Module WidgetFacts.
Import SplashWidget.

(** The splash window is centred on the screen: the gap left of it and
    the gap right of it differ by at most one pixel (the right one being
    the larger), and likewise vertically; the window starts inside the
    screen exactly when the screen is at least as large as the window. *)
Theorem center_pos_centered sw sh :
  let '(x, y) := center_pos sw sh in
  0 <= (sw - (x + splash_width)) - x <= 1 /\
  0 <= (sh - (y + splash_height)) - y <= 1 /\
  (0 <= x <-> splash_width <= sw) /\ (0 <= y <-> splash_height <= sh).
Proof.
  unfold center_pos, splash_width, splash_height.
  pose proof (Z.div_mod (sw - 280) 2 ltac:(lia)).
  pose proof (Z.mod_pos_bound (sw - 280) 2 ltac:(lia)).
  pose proof (Z.div_mod (sh - 180) 2 ltac:(lia)).
  pose proof (Z.mod_pos_bound (sh - 180) 2 ltac:(lia)).
  lia.
Qed.

Lemma paint_event_lookup w h i r :
  paint_event w h !! i = Some r -> (i < 5)%nat /\ r = shadow w h i.
Proof.
  unfold paint_event. intros Hr. apply list_lookup_fmap_Some_1 in Hr as (j & -> & Hj).
  apply lookup_seq in Hj as [-> ?]. simpl in *. split; [lia | done].
Qed.

(** [paintEvent] draws five rounded rectangles, each centred in the
    widget (as far from the left as from the right edge, and from the top
    as from the bottom) with a positive size and a positive opacity; each
    one lies strictly inside the one before it and is drawn with a
    smaller opacity, so the shadow darkens towards the middle. *)
Theorem paint_event_nested_shadows w h :
  16 < w -> 16 < h ->
  length (paint_event w h) = 5%nat /\
  (forall i r, paint_event w h !! i = Some r ->
     sh_x r = sh_y r /\ sh_x r + sh_w r + sh_x r = w /\ sh_y r + sh_h r + sh_y r = h /\
     0 < sh_w r /\ 0 < sh_h r /\ (0 < sh_opacity r)%Q) /\
  (forall i r r', paint_event w h !! i = Some r -> paint_event w h !! S i = Some r' ->
     sh_x r < sh_x r' /\ sh_x r' + sh_w r' < sh_x r + sh_w r /\
     sh_y r < sh_y r' /\ sh_y r' + sh_h r' < sh_y r + sh_h r /\
     (sh_opacity r' < sh_opacity r)%Q).
Proof.
  intros Hw Hh. split; [reflexivity | split].
  - intros i r Hr. apply paint_event_lookup in Hr as [Hi ->].
    destruct i as [|[|[|[|[|i]]]]]; try lia; unfold shadow;
      cbn [sh_x sh_y sh_w sh_h sh_opacity]; repeat split; try lia; vm_compute; reflexivity.
  - intros i r r' Hr Hr'.
    apply paint_event_lookup in Hr as [Hi ->]. apply paint_event_lookup in Hr' as [Hi' ->].
    destruct i as [|[|[|[|[|i]]]]]; try lia; unfold shadow;
      cbn [sh_x sh_y sh_w sh_h sh_opacity]; repeat split; try lia; vm_compute; reflexivity.
Qed.






Lemma paint_event_nested_shadows_witness :
  16 < splash_width /\ 16 < splash_height /\
  length (paint_event splash_width splash_height) = 5%nat.
Proof.
  split; [reflexivity | split; [reflexivity |]].
  exact (proj1 (paint_event_nested_shadows splash_width splash_height
                  ltac:(reflexivity) ltac:(reflexivity))).
Defined.

End WidgetFacts.

Module LauncherFacts.
Import Stdlib.Strings.Ascii Stdlib.Strings.String Launchers.

Lemma list_ascii_app a b :
  list_ascii_of_string (a +:+ b) = list_ascii_of_string a ++ list_ascii_of_string b.
Proof. induction a as [|c a IH]; [reflexivity |]. exact (f_equal (cons c) IH). Qed.

Lemma no_quote_forall s :
  has_quote s = false -> Forall (fun c => c <> dq) (list_ascii_of_string s).
Proof.
  unfold has_quote. intros H. apply List.Forall_forall. intros c Hc Heq.
  assert (existsb (fun c => Ascii.eqb c dq) (list_ascii_of_string s) = true) as Ht.
  { apply existsb_exists. exists c. split; [exact Hc |]. subst c. reflexivity. }
  congruence.
Qed.

Lemma eqb_false c d : c <> d -> Ascii.eqb c d = false.
Proof. apply Ascii.eqb_neq. Qed.

(** Inside quotes, a program name without quotes is copied as it is. *)
Lemma prog_name_quoted s r acc :
  Forall (fun c => c <> dq) s ->
  prog_name (s ++ r) true acc = prog_name r true (rev s ++ acc).
Proof.
  revert acc. induction s as [|c s IH]; intros acc Hs; [reflexivity |].
  inversion Hs as [|? ? Hc Hs']; subst.
  cbn [app prog_name]. rewrite (eqb_false _ _ Hc). cbn [negb andb].
  rewrite andb_false_r, IH by exact Hs'. cbn [rev]. by rewrite <- app_assoc.
Qed.

Lemma flush_some n a : flush n (Some a) = Some (repeat bs n ++ a).
Proof. destruct n; reflexivity. Qed.

(** Inside quotes, an argument without quotes is copied as it is, up to
    the backslashes still pending at its end. *)
Lemma args_quoted s n acc rest accs :
  Forall (fun c => c <> dq) s ->
  exists k acc', args_go (s ++ rest) n true (Some acc) accs = args_go rest k true (Some acc') accs /\
    repeat bs k ++ acc' = rev s ++ repeat bs n ++ acc.
Proof.
  revert n acc. induction s as [|c s IH]; intros n acc Hs.
  - exists n, acc. split; reflexivity.
  - inversion Hs as [|? ? Hc Hs']; subst. cbn [app args_go].
    rewrite (eqb_false _ _ Hc).
    destruct (Ascii.eqb c bs) eqn:Ebs.
    + apply Ascii.eqb_eq in Ebs. subst c.
      destruct (IH (S n) acc Hs') as (k & acc' & Hgo & Heq).
      exists k, acc'. split; [exact Hgo |]. rewrite Heq. cbn [rev repeat].
      by rewrite <- app_assoc.
    + cbn [negb]. rewrite andb_false_r, flush_some. cbn [default].
      destruct (IH 0%nat (c :: repeat bs n ++ acc) Hs') as (k & acc' & Hgo & Heq).
      exists k, acc'. split; [exact Hgo |]. rewrite Heq. cbn [rev repeat app].
      by rewrite <- app_assoc.
Qed.

(** A quoted argument without quotes and not ending in a backslash comes
    out of [args_go] unchanged. *)
Lemma args_go_quoted l c :
  Forall (fun c => c <> dq) l -> c <> bs -> c <> dq ->
  args_go (dq :: l ++ [c; dq]) 0 false None [] = [string_of_list_ascii (l ++ [c])].
Proof.
  intros Hl Hbs Hdq. cbn [args_go]. change (Ascii.eqb dq bs) with false.
  change (Ascii.eqb dq dq) with true. cbv beta iota. cbn [Nat.odd Nat.even negb Nat.div2 repeat default app].
  destruct (args_quoted l 0 [] [c; dq] [] Hl) as (k & acc' & -> & Heq).
  cbn [args_go]. rewrite (eqb_false _ _ Hbs), (eqb_false _ _ Hdq), andb_false_r, flush_some.
  change (Ascii.eqb dq bs) with false. change (Ascii.eqb dq dq) with true.
  cbv beta iota. cbn [Nat.odd Nat.even negb Nat.div2 repeat default app args_go flush push_arg Nat.eqb].
  rewrite flush_some. unfold id. cbn [default]. rewrite Heq. cbn [repeat]. rewrite app_nil_r. cbn [rev]. by rewrite rev_involutive.
Qed.

Lemma vbs_quote_list s :
  list_ascii_of_string (vbs_quote s) = dq :: list_ascii_of_string s ++ [dq].
Proof. unfold vbs_quote. rewrite !list_ascii_app. reflexivity. Qed.

Lemma splash_script_list dir :
  list_ascii_of_string (splash_script dir) =
  (list_ascii_of_string dir ++ list_ascii_of_string "\splash.py") ++ ["w"%char].
Proof. unfold splash_script. rewrite list_ascii_app, <- app_assoc. reflexivity. Qed.

Lemma splash_arg dir :
  has_quote dir = false ->
  args_go (dq :: list_ascii_of_string (splash_script dir) ++ [dq]) 0 false None [] =
  [splash_script dir].
Proof.
  intros Hq. rewrite splash_script_list, <- app_assoc. cbn [app].
  rewrite args_go_quoted.
  - rewrite <- splash_script_list, string_of_list_ascii_of_string. reflexivity.
  - apply Forall_app. split; [by apply no_quote_forall |].
    repeat constructor; discriminate.
  - discriminate.
  - discriminate.
Qed.

(** The command line [q p q space q s q], with [q] a double quote, gives [argv = [p; s]]. *)
Lemma quoted_pair_argv p s :
  has_quote p = false -> has_quote s = false ->
  args_go (dq :: list_ascii_of_string s ++ [dq]) 0 false None [] = [s] ->
  crt_argv (vbs_quote p +:+ " " +:+ vbs_quote s) = [p; s].
Proof.
  intros Hp Hs Hargs. unfold crt_argv.
  rewrite list_ascii_app, vbs_quote_list, list_ascii_app, vbs_quote_list.
  cbn [app prog_name]. change (Ascii.eqb dq dq) with true. cbv beta iota. cbn [negb].
  rewrite <- app_assoc. cbn [app].
  rewrite (prog_name_quoted _ _ _ (no_quote_forall _ Hp)).
  cbn [prog_name]. change (Ascii.eqb dq dq) with true. cbv beta iota. cbn [negb].
  change (list_ascii_of_string " ") with [" "%char]. cbn [app prog_name].
  change (Ascii.eqb " " dq) with false. change (is_blank " ") with true. cbn [andb negb].
  rewrite app_nil_r, rev_involutive, string_of_list_ascii_of_string, Hargs. reflexivity.
Qed.

Lemma venv_no_quote dir : has_quote dir = false -> has_quote (venv_pythonw dir) = false.
Proof.
  unfold has_quote, venv_pythonw. rewrite list_ascii_app, existsb_app. intros ->. reflexivity.
Qed.

Lemma alt_venv_no_quote dir : has_quote dir = false -> has_quote (alt_venv_pythonw dir) = false.
Proof.
  unfold has_quote, alt_venv_pythonw. rewrite list_ascii_app, existsb_app. intros ->. reflexivity.
Qed.

Lemma splash_no_quote dir : has_quote dir = false -> has_quote (splash_script dir) = false.
Proof.
  unfold has_quote, splash_script. rewrite list_ascii_app, existsb_app. intros ->. reflexivity.
Qed.

Lemma vbs_launcher_argv_helper file_exists scriptDir :
  has_quote scriptDir = false ->
  crt_argv (run_command (vbs_launcher file_exists scriptDir)) =
    [if file_exists (venv_pythonw scriptDir) then venv_pythonw scriptDir
     else if file_exists (alt_venv_pythonw scriptDir) then alt_venv_pythonw scriptDir
     else "pythonw"; splash_script scriptDir].
Proof.
  intros Hq. pose proof (splash_arg _ Hq) as Harg. unfold vbs_launcher.
  destruct (file_exists (venv_pythonw scriptDir)); cbn [run_command].
  { apply quoted_pair_argv; auto using venv_no_quote, splash_no_quote. }
  destruct (file_exists (alt_venv_pythonw scriptDir)); cbn [run_command].
  { apply quoted_pair_argv; auto using alt_venv_no_quote, splash_no_quote. }
  unfold crt_argv. rewrite list_ascii_app, vbs_quote_list. simpl. simpl in Harg. rewrite Harg. reflexivity.
Qed.

Lemma append_assoc_s a b c : (a +:+ b) +:+ c = a +:+ (b +:+ c).
Proof. induction a as [|x a IH]; [reflexivity |]. exact (f_equal (String x) IH). Qed.

Lemma length_app_s a b : String.length (a +:+ b) = (String.length a + String.length b)%nat.
Proof. induction a as [|x a IH]; [reflexivity |]. exact (f_equal S IH). Qed.

Lemma substring_app_s a b k m :
  substring (String.length a + k) m (a +:+ b) = substring k m b.
Proof. induction a as [|x a IH]; [reflexivity |]. exact IH. Qed.

Lemma ends_with_app suf a b :
  (String.length suf <= String.length b)%nat ->
  Splash.ends_with suf (a +:+ b) = Splash.ends_with suf b.
Proof.
  intros H. unfold Splash.ends_with. rewrite length_app_s.
  replace (String.length a + String.length b - String.length suf)%nat
    with (String.length a + (String.length b - String.length suf))%nat by lia.
  rewrite substring_app_s.
  rewrite (proj2 (Nat.leb_le _ (String.length b)) H).
  rewrite (proj2 (Nat.leb_le _ (String.length a + String.length b))) by lia.
  reflexivity.
Qed.

Lemma path_join_sep env a b :
  Splash.os_sep env = "\" -> a <> "" -> Splash.ends_with "\" a = false ->
  Splash.path_join env a b = a +:+ "\" +:+ b.
Proof.
  intros Hsep Hne Hend. unfold Splash.path_join. rewrite Hsep, Hend.
  replace (String.eqb a "") with false by (symmetry; apply String.eqb_neq; exact Hne).
  reflexivity.
Qed.

Lemma pythonw_venv env :
  Splash.os_sep env = "\" -> Splash.script_dir env <> "" ->
  Splash.ends_with "\" (Splash.script_dir env) = false ->
  Splash.pythonw env = venv_pythonw (Splash.script_dir env).
Proof.
  intros Hsep Hne Hend. unfold Splash.pythonw.
  set (d := Splash.script_dir env) in *.
  rewrite (path_join_sep env d ".venv") by assumption.
  rewrite (path_join_sep env (d +:+ "\" +:+ ".venv") "Scripts"); try assumption.
  2: { destruct d; discriminate. }
  2: { rewrite ends_with_app by (vm_compute; lia). reflexivity. }
  rewrite (path_join_sep env ((d +:+ "\" +:+ ".venv") +:+ "\" +:+ "Scripts") "pythonw.exe");
    try assumption.
  2: { destruct d; discriminate. }
  2: { rewrite ends_with_app by (vm_compute; lia). reflexivity. }
  rewrite !append_assoc_s. reflexivity.
Qed.

(** The VBScript launcher starts [pythonw.exe] with the quoted command
    line it builds, and that command line splits back into exactly two
    arguments: the interpreter it chose (the [.venv] one if that file
    exists, else the [venv] one if that exists, else [pythonw] from the
    PATH) and the full path of [splash.pyw], whatever spaces the install
    folder's path holds (a Windows path holds no double quote). It runs
    the command hidden (window style 0) and does not wait for it. *)
Theorem vbs_launcher_argv file_exists scriptDir :
  has_quote scriptDir = false ->
  crt_argv (run_command (vbs_launcher file_exists scriptDir)) =
    [if file_exists (venv_pythonw scriptDir) then venv_pythonw scriptDir
     else if file_exists (alt_venv_pythonw scriptDir) then alt_venv_pythonw scriptDir
     else "pythonw"; splash_script scriptDir] /\
  run_window (vbs_launcher file_exists scriptDir) = 0 /\
  run_wait (vbs_launcher file_exists scriptDir) = false.
Proof.
  intros Hq. split; [by apply vbs_launcher_argv_helper |].
  unfold vbs_launcher.
  destruct (file_exists (venv_pythonw scriptDir)); [split; reflexivity |].
  destruct (file_exists (alt_venv_pythonw scriptDir)); split; reflexivity.
Qed.

Lemma vbs_launcher_argv_witness :
  has_quote "C:\Program Files\LifAi2" = false /\
  crt_argv (run_command (vbs_launcher (fun _ => false) "C:\Program Files\LifAi2")) =
    ["pythonw"; "C:\Program Files\LifAi2\splash.pyw"].
Proof.
  split; [reflexivity |].
  exact (proj1 (vbs_launcher_argv (fun _ => false) "C:\Program Files\LifAi2" eq_refl)).
Defined.

(** [launch.bat] and the VBScript launcher try the same interpreters in
    the same order: the [.venv] one, then the [venv] one (the batch file
    naming them relative to its folder, the script by full path), then
    [pythonw] from the PATH; the batch file prints its notice exactly in
    that last case. *)
Theorem bat_and_vbs_same_interpreter file_exists scriptDir :
  has_quote scriptDir = false ->
  exists echoes prog,
    launch_bat file_exists scriptDir = echoes ++ [BatStart "" prog ["run.pyw"]] /\
    head (crt_argv (run_command (vbs_launcher file_exists scriptDir))) =
      Some (if String.eqb prog "pythonw" then prog else bat_resolve scriptDir prog) /\
    (echoes <> [] <-> prog = "pythonw").
Proof.
  intros Hq. rewrite (vbs_launcher_argv_helper _ _ Hq). unfold launch_bat.
  change (bat_resolve scriptDir ".venv\Scripts\pythonw.exe") with (venv_pythonw scriptDir).
  change (bat_resolve scriptDir "venv\Scripts\pythonw.exe") with (alt_venv_pythonw scriptDir).
  destruct (file_exists (venv_pythonw scriptDir)).
  { exists [], ".venv\Scripts\pythonw.exe". split; [reflexivity | split; [reflexivity |]].
    split; [intros H; by destruct H | discriminate]. }
  destruct (file_exists (alt_venv_pythonw scriptDir)).
  { exists [], "venv\Scripts\pythonw.exe". split; [reflexivity | split; [reflexivity |]].
    split; [intros H; by destruct H | discriminate]. }
  exists [BatEcho "Virtual environment not found. Using system Python..."], "pythonw".
  split; [reflexivity | split; [reflexivity |]]. split; [reflexivity | discriminate].
Qed.

Lemma bat_and_vbs_same_interpreter_witness :
  has_quote "C:\LifAi2" = false /\
  exists echoes prog,
    launch_bat (fun p => String.eqb p "C:\LifAi2\venv\Scripts\pythonw.exe") "C:\LifAi2"
      = echoes ++ [BatStart "" prog ["run.pyw"]] /\
    head (crt_argv (run_command
      (vbs_launcher (fun p => String.eqb p "C:\LifAi2\venv\Scripts\pythonw.exe") "C:\LifAi2"))) =
      Some (if String.eqb prog "pythonw" then prog else bat_resolve "C:\LifAi2" prog) /\
    (echoes <> [] <-> prog = "pythonw").
Proof.
  split; [reflexivity |].
  exact (bat_and_vbs_same_interpreter
           (fun p => String.eqb p "C:\LifAi2\venv\Scripts\pythonw.exe") "C:\LifAi2" eq_refl).
Defined.

(** On a machine whose file system both the launchers and [splash.pyw]
    see: when [.venv\Scripts\pythonw.exe] exists, the VBScript launcher
    starts the splash screen with it and the splash screen starts
    [run.pyw] with the same interpreter; when only
    [venv\Scripts\pythonw.exe] exists, both launchers use that one, but
    the splash screen starts [run.pyw] with [pythonw] from the PATH, a
    different interpreter. *)
Theorem splash_interpreter_vs_launchers env :
  Splash.os_sep env = "\" -> Splash.script_dir env <> "" ->
  Splash.ends_with "\" (Splash.script_dir env) = false ->
  has_quote (Splash.script_dir env) = false ->
  (Splash.path_exists env (venv_pythonw (Splash.script_dir env)) = true ->
     head (crt_argv (run_command
       (vbs_launcher (Splash.path_exists env) (Splash.script_dir env)))) =
       Some (venv_pythonw (Splash.script_dir env)) /\
     Observe.chosen_interpreter env = venv_pythonw (Splash.script_dir env)) /\
  (Splash.path_exists env (venv_pythonw (Splash.script_dir env)) = false ->
   Splash.path_exists env (alt_venv_pythonw (Splash.script_dir env)) = true ->
     head (crt_argv (run_command
       (vbs_launcher (Splash.path_exists env) (Splash.script_dir env)))) =
       Some (alt_venv_pythonw (Splash.script_dir env)) /\
     launch_bat (Splash.path_exists env) (Splash.script_dir env) =
       [BatStart "" "venv\Scripts\pythonw.exe" ["run.pyw"]] /\
     Observe.chosen_interpreter env = "pythonw").
Proof.
  intros Hsep Hne Hend Hq.
  pose proof (pythonw_venv env Hsep Hne Hend) as Hpw.
  rewrite (vbs_launcher_argv_helper _ _ Hq). unfold Observe.chosen_interpreter.
  rewrite Hpw. split.
  - intros Hv. rewrite Hv. split; reflexivity.
  - intros Hv Ha. rewrite Hv, Ha. split; [reflexivity | split; [| reflexivity]].
    unfold launch_bat.
    change (bat_resolve (Splash.script_dir env) ".venv\Scripts\pythonw.exe")
      with (venv_pythonw (Splash.script_dir env)).
    change (bat_resolve (Splash.script_dir env) "venv\Scripts\pythonw.exe")
      with (alt_venv_pythonw (Splash.script_dir env)).
    rewrite Hv, Ha. reflexivity.
Qed.

Lemma splash_interpreter_vs_launchers_witness :
  Splash.os_sep LauncherObs.env_venv_only = "\" /\
  Splash.script_dir LauncherObs.env_venv_only <> "" /\
  Splash.ends_with "\" (Splash.script_dir LauncherObs.env_venv_only) = false /\
  has_quote (Splash.script_dir LauncherObs.env_venv_only) = false /\
  Observe.chosen_interpreter LauncherObs.env_venv_only = "pythonw".
Proof.
  split; [reflexivity | split; [discriminate | split; [reflexivity | split; [reflexivity |]]]].
  refine (proj2 (proj2 (proj2 (splash_interpreter_vs_launchers LauncherObs.env_venv_only
            eq_refl _ eq_refl eq_refl) eq_refl eq_refl))).
  discriminate.
Defined.

End LauncherFacts.

(* ================================================================== *)
(** ** The prompt editor's ordered names *)

Module PromptOrderFacts.
Import PromptOrder.

Section OrderFacts.
Context {V : Type}.
Implicit Types (prompts : gmap string (gmap string V)) (order : list string).

Lemma ordered_names_none prompts order :
  ordered_names prompts order = None <->
  exists id p, id ∈ order /\ prompts !! id = Some p /\ p !! "name" = None.
Proof.
  induction order as [|id order IH]; simpl.
  - split; [discriminate | intros (? & ? & Hin & _); by apply elem_of_nil in Hin].
  - destruct (prompts !! id) as [p|] eqn:Hp.
    + destruct (p !! "name") as [n|] eqn:Hn.
      * destruct (ordered_names prompts order) as [ns|] eqn:Hr.
        -- split; [discriminate |]. intros (id' & p' & Hin & Hp' & Hn').
           apply elem_of_cons in Hin as [->|Hin]; [congruence |].
           assert (Some ns = None) by (apply IH; eauto). discriminate.
        -- split; [intros _ | done]. destruct (proj1 IH eq_refl) as (id' & p' & ? & ? & ?).
           exists id', p'. split_and!; [by apply elem_of_cons; right | done | done].
      * split; [intros _ | done]. exists id, p.
        split_and!; [by apply elem_of_cons; left | done | done].
    + rewrite IH. split; intros (id' & p' & Hin & Hp' & Hn').
      * exists id', p'. split_and!; [by apply elem_of_cons; right | done | done].
      * apply elem_of_cons in Hin as [->|Hin]; [congruence |]. eauto.
Qed.

Lemma ordered_names_some prompts order ns :
  ordered_names prompts order = Some ns ->
  ns = omap (fun id => prompts !! id ≫= (fun p => p !! "name")) order.
Proof.
  revert ns. induction order as [|id order IH]; simpl; intros ns H.
  - by injection H.
  - destruct (prompts !! id) as [p|] eqn:Hp; simpl.
    + destruct (p !! "name") as [n|] eqn:Hn; [| discriminate].
      destruct (ordered_names prompts order) as [ns'|] eqn:Hr; [| discriminate].
      injection H as <-. f_equal. by apply IH.
    + by apply IH.
Qed.

Lemma ordered_names_total prompts order :
  (forall id, id ∈ order -> exists p, prompts !! id = Some p) ->
  map_Forall (fun _ p => is_Some (p !! "name")) prompts ->
  exists ns, ordered_names prompts order = Some ns /\
    Forall2 (fun id n => exists p, prompts !! id = Some p /\ p !! "name" = Some n) order ns.
Proof.
  intros Hin Hall. induction order as [|id order IH]; simpl.
  - exists []. split; [done | constructor].
  - destruct (Hin id (proj2 (elem_of_cons _ _ _) (or_introl eq_refl))) as [p Hp]. rewrite Hp.
    destruct (Hall id p Hp) as [n Hn]. rewrite Hn.
    destruct IH as (ns & -> & HF).
    { intros id' ?. apply Hin. apply elem_of_cons. by right. }
    exists (n :: ns). split; [done | constructor; eauto].
Qed.

(** [[prompts[id]["name"] for id in saved_order if id in prompts]] fails
    (with the [KeyError] of ["name"]) exactly when some id of the saved
    order names a prompt that has no ["name"] field; otherwise its result
    lists the names in the saved order, one per saved id that is a prompt,
    ids that are no prompt being skipped. *)
Theorem ordered_names_result prompts order :
  (ordered_names prompts order = None <->
     exists id p, id ∈ order /\ prompts !! id = Some p /\ p !! "name" = None) /\
  (forall ns, ordered_names prompts order = Some ns ->
     ns = omap (fun id => prompts !! id ≫= (fun p => p !! "name")) order).
Proof.
  split; [apply ordered_names_none | intros ns; apply ordered_names_some].
Qed.

(** When the saved order lists every prompt id exactly once and every
    prompt has a name, the list comprehension gives one name per prompt,
    the i-th name being the name of the prompt of the i-th saved id. *)
Theorem ordered_names_one_per_prompt prompts order :
  NoDup order -> dom prompts = list_to_set order ->
  map_Forall (fun _ p => is_Some (p !! "name")) prompts ->
  exists ns, ordered_names prompts order = Some ns /\ length ns = size prompts /\
    Forall2 (fun id n => exists p, prompts !! id = Some p /\ p !! "name" = Some n) order ns.
Proof.
  intros Hnd Hdom Hall.
  destruct (ordered_names_total prompts order) as (ns & Hns & HF); [| done |].
  { intros id Hid. apply elem_of_dom. rewrite Hdom. by apply elem_of_list_to_set. }
  exists ns. split_and!; [done | | done].
  rewrite <- (Forall2_length _ _ _ HF), <- size_dom, Hdom.
  by rewrite size_list_to_set.
Qed.

End OrderFacts.

Lemma ordered_names_one_per_prompt_witness :
  NoDup demo_saved_order /\ dom demo_prompts = list_to_set demo_saved_order /\
  map_Forall (fun _ p => is_Some (p !! "name")) demo_prompts /\
  exists ns, ordered_names demo_prompts demo_saved_order = Some ns /\
    length ns = size demo_prompts /\
    Forall2 (fun id n => exists p, demo_prompts !! id = Some p /\ p !! "name" = Some n)
      demo_saved_order ns.
Proof.
  assert (Hnd : NoDup demo_saved_order).
  { unfold demo_saved_order. apply NoDup_cons; split.
    - rewrite elem_of_cons, elem_of_nil. intros [H|[]]; discriminate.
    - apply NoDup_singleton. }
  assert (Hdom : dom demo_prompts = list_to_set demo_saved_order) by (vm_compute; reflexivity).
  assert (Hall : map_Forall (fun _ p => is_Some (p !! "name")) demo_prompts)
    by (unfold demo_prompts; apply map_Forall_insert_2;
        [| apply map_Forall_singleton]; eexists; reflexivity).
  exact (conj Hnd (conj Hdom (conj Hall
    (ordered_names_one_per_prompt demo_prompts demo_saved_order Hnd Hdom Hall)))).
Defined.

End PromptOrderFacts.

(* ================================================================== *)
(** ** Handler order of the error-handling pattern *)

Module HandlerFacts.
Import Errors.

(** In the documented [try ... except] chain around an Ollama call
    (connection, timeout, model-not-found, then the base [OllamaError]),
    every exception class of the chain is caught by its own clause, not by
    an earlier one (the base class's clause comes last), and any other
    exception class, such as a plain [Exception] or an LM Studio error, is
    caught by none of them and propagates. *)
Theorem ollama_handler_chain_dispatch :
  (forall i c, handler_set Ollama !! i = Some c ->
     first_handler (handler_set Ollama) c = Some i) /\
  (forall c, c ∉ handler_set Ollama -> first_handler (handler_set Ollama) c = None).
Proof.
  split.
  - intros i c H.
    do 4 (destruct i as [|i]; [injection H as <-; reflexivity |]). discriminate.
  - intros c H. destruct c; try reflexivity; exfalso; apply H; simpl;
      rewrite !elem_of_cons; tauto.
Qed.

End HandlerFacts.
